(** * LinkedInAnalyzer: the skill-extraction pipeline

    A shallow embedding of [src/utils.py] and [src/extract_skills.py]:
    the retry wrapper around the chat-completion client, the parsing of
    the model's answer into a skill list, the flat-file dedupe store and
    the pagination driver with its two levels of error containment.

    Python strings are modelled as [string], one [ascii] per code point
    (so the code points below 256); JSON numbers as integers. *)

From Stdlib Require Import ZArith QArith Ascii String List Bool Lia.
From stdpp Require Import base gmap strings list.

#[local] Set Warnings "-register-all".

Local Open Scope Z_scope.

(* ===================================================================== *)
(** ** Python strings: [str.strip], [str.split(",")], [", ".join] *)
(* ===================================================================== *)

Module PyStr.

(** [str.isspace] on one code point below 256: TAB..CR, FS..US, space,
    NEL (0x85) and NBSP (0xA0). *)
Definition isspace (c : ascii) : bool :=
  let n := N_of_ascii c in
  (((9 <=? n) && (n <=? 13)) || ((28 <=? n) && (n <=? 32))
   || (n =? 133) || (n =? 160))%N.

Fixpoint all_space (s : string) : bool :=
  match s with
  | EmptyString => true
  | String c r => isspace c && all_space r
  end.

(** [s.lstrip()] *)
Fixpoint lstrip (s : string) : string :=
  match s with
  | EmptyString => EmptyString
  | String c r => if isspace c then lstrip r else s
  end.

(** [s.rstrip()] *)
Fixpoint rstrip (s : string) : string :=
  match s with
  | EmptyString => EmptyString
  | String c r =>
      match rstrip r with
      | EmptyString => if isspace c then EmptyString else String c EmptyString
      | r' => String c r'
      end
  end.

(** [s.strip()]: whitespace removed at both ends. *)
Definition strip (s : string) : string := rstrip (lstrip s).

Definition comma : ascii := ","%char.

(** [s.split(",")]: the fragments between the commas, in order; the empty
    string gives one empty fragment. *)
Fixpoint split_comma (s : string) : list string :=
  match s with
  | EmptyString => [EmptyString]
  | String c r =>
      if Ascii.eqb c comma then EmptyString :: split_comma r
      else match split_comma r with
           | h :: t => String c h :: t
           | [] => [String c EmptyString]
           end
  end.

(** [sep.join(l)] *)
Fixpoint join (sep : string) (l : list string) : string :=
  match l with
  | [] => EmptyString
  | [x] => x
  | x :: rest => x +:+ sep +:+ join sep rest
  end.

(** Truth value of a string: non-empty. *)
Definition nonempty (s : string) : bool :=
  match s with EmptyString => false | _ => true end.

Definition first_char (s : string) : option ascii :=
  match s with EmptyString => None | String c _ => Some c end.

Fixpoint last_char (s : string) : option ascii :=
  match s with
  | EmptyString => None
  | String c EmptyString => Some c
  | String _ r => last_char r
  end.

(** No whitespace at either end (the empty string qualifies). *)
Definition trimmed (s : string) : Prop :=
  (forall c, first_char s = Some c -> isspace c = false) /\
  (forall c, last_char s = Some c -> isspace c = false).

Fixpoint has_comma (s : string) : bool :=
  match s with
  | EmptyString => false
  | String c r => Ascii.eqb c comma || has_comma r
  end.

(** Text-mode iteration over a file ([for line in file], universal
    newlines): a line ends at LF, CR or CR LF, each delivered as LF; a
    last line without terminator is delivered as it is. *)
Definition LF : ascii := ascii_of_nat 10.
Definition CR : ascii := ascii_of_nat 13.

Fixpoint lines_from (cur : string) (s : string) : list string :=
  match s with
  | EmptyString => if nonempty cur then [cur] else []
  | String c r =>
      if Ascii.eqb c LF then (cur +:+ String LF EmptyString) :: lines_from EmptyString r
      else if Ascii.eqb c CR then
        (cur +:+ String LF EmptyString) ::
        match r with
        | String c' r' => if Ascii.eqb c' LF then lines_from EmptyString r'
                          else lines_from EmptyString r
        | EmptyString => []
        end
      else lines_from (cur +:+ String c EmptyString) r
  end.

Definition file_lines (text : string) : list string := lines_from EmptyString text.

End PyStr.

(* ===================================================================== *)
(** ** Python values, exceptions, the world and the effect monad *)
(* ===================================================================== *)

Module Py.

(** What [response.json()] can deliver. A mapping is kept as its list of
    items; the first binding of a key is the one [d[k]] and [d.get] see. *)
Inductive json :=
| JNull
| JBool (b : bool)
| JNum (z : Z)
| JStr (s : string)
| JList (l : list json)
| JDict (d : list (string * json)).

(** Hashable values as set members: [True == 1] and [False == 0] hash and
    compare equal, so booleans are stored as integers. *)
Inductive pykey := KNone | KInt (z : Z) | KStr (s : string).

#[global] Instance pykey_eq_dec : EqDecision pykey.
Proof. solve_decision. Defined.

#[global] Instance pykey_countable : Countable pykey.
Proof.
  refine (inj_countable'
    (fun k => match k with
              | KNone => inl tt
              | KInt z => inr (inl z)
              | KStr s => inr (inr s)
              end)
    (fun x => match x with
              | inl _ => KNone
              | inr (inl z) => KInt z
              | inr (inr s) => KStr s
              end) _).
  intros k; destruct k; reflexivity.
Defined.

(** Exceptions (all below [Exception]; [KeyboardInterrupt] and the like
    are not modelled). [RequestException] stands for
    [requests.exceptions.RequestException] and its subclasses,
    [RateLimitError] for the provider's rate-limit signal, [Exception] for
    any other class. *)
Inductive exn :=
| RequestException (msg : string)
| RateLimitError
| KeyError (key : string)
| TypeError (msg : string)
| Exception (msg : string).

Definition is_request_exception (e : exn) : bool :=
  match e with RequestException _ => true | _ => false end.

Definition is_rate_limit_error (e : exn) : bool :=
  match e with RateLimitError => true | _ => false end.

Inductive level := INFO | WARNING | ERROR.

(** One constructor per logging statement of the two source files; the
    arguments are the values interpolated into the message. *)
Inductive log_msg :=
| RateLimitReached (delay : Q)
| MaxRetriesReached
| PipelineStarting
| ProcessingLocation (location_id : string)
| FetchingPage (page : Z)
| NoMoreListings
| FetchingDetails (job_id : json)
| UnexpectedFormat (job_details : json)
| JobRequestFailed (job_id : json) (e : exn)
| JobUnexpectedError (job_id : json) (e : exn)
| ProcessedNewJobs (n : Z) (total : Z)
| RequestFailed (e : exn)
| UnexpectedError (e : exn)
| PipelineCompleted.

(** What the process does to the outside, in order. *)
Inductive event :=
| EvLog (lvl : level) (m : log_msg)
| EvSleep (seconds : Q)
| EvChatCreate (model : string) (messages : list (string * string))
| EvGet (url : string) (params : list (string * json))
| EvWriterow (path : string) (row : list json).

(** The files of the working directory and the trace so far. Opening and
    writing a file are taken to succeed. *)
Record world := World {
  files : gmap string string;   (* path |-> text content *)
  trace : list event
}.

Inductive reply (A : Type) :=
| Returned (a : A)
| Raised (e : exn).
Arguments Returned {A} a.
Arguments Raised {A} e.

(** [config.yaml] *)
Record Config := {
  INITIAL_DELAY : Q;
  MAX_RETRIES : Z;
  BACKOFF_FACTOR : Q;
  MODEL : string;
  LINKEDIN_API_KEY : string
}.

(** The environment of a run. The two remote services answer as a function
    of everything the process did before the call. [format_value] is the
    text an f-string gives a value that is not a [str]; [csv_row] is
    [csv.writer]'s text for one row, terminator included. *)
Record Env := {
  config : Config;
  chat_create : list event -> string -> list (string * string) -> reply string;
  requests_get_json : list event -> string -> list (string * json) -> reply json;
  format_value : json -> string;
  csv_row : list json -> string
}.

Inductive outcome (A : Type) :=
| Ok (a : A)
| Raise (e : exn)
| Diverge.
Arguments Ok {A} a.
Arguments Raise {A} e.
Arguments Diverge {A}.

Definition M (A : Type) : Type := world -> world * outcome A.

#[global] Instance M_ret : MRet M := fun A a w => (w, Ok a).

#[global] Instance M_bind : MBind M := fun A B f m w =>
  match m w with
  | (w', Ok a) => f a w'
  | (w', Raise e) => (w', Raise e)
  | (w', Diverge) => (w', Diverge)
  end.

Definition raise {A} (e : exn) : M A := fun w => (w, Raise e).
Definition diverge {A} : M A := fun w => (w, Diverge).

(** [try: body except ... as e: handler e]; the handler decides which
    classes it takes and re-raises the others. *)
Definition try_except {A} (body : M A) (handler : exn -> M A) : M A :=
  fun w =>
    match body w with
    | (w', Raise e) => handler e w'
    | r => r
    end.

Definition emit (ev : event) : M unit :=
  fun w => (World (files w) (trace w ++ [ev]), Ok tt).

Definition log (lvl : level) (m : log_msg) : M unit := emit (EvLog lvl m).

Definition sleep (seconds : Q) : M unit := emit (EvSleep seconds).

(** [os.path.exists] *)
Definition path_exists (path : string) : M bool :=
  fun w => (w, Ok (bool_decide (is_Some (files w !! path)))).

(** [open(path, "w")]: the file is created or emptied. *)
Definition open_w (path : string) : M unit :=
  fun w => (World (<[path := EmptyString]> (files w)) (trace w), Ok tt).

(** [open(path, "a")]: the file is created when it is missing. *)
Definition open_a (path : string) : M unit :=
  fun w => (World (<[path := default EmptyString (files w !! path)]> (files w))
                  (trace w), Ok tt).

Definition append_text (path : string) (text : string) : M unit :=
  fun w => (World (<[path := default EmptyString (files w !! path) +:+ text]> (files w))
                  (trace w), Ok tt).

(** [bool(v)] *)
Definition truthy (v : json) : bool :=
  match v with
  | JNull => false
  | JBool b => b
  | JNum z => negb (z =? 0)
  | JStr s => PyStr.nonempty s
  | JList l => match l with [] => false | _ => true end
  | JDict d => match d with [] => false | _ => true end
  end.

Fixpoint chars (s : string) : list json :=
  match s with
  | EmptyString => []
  | String c r => JStr (String c EmptyString) :: chars r
  end.

(** [for x in v]: a list gives its elements, a mapping its keys, a string
    its characters; the rest is not iterable. *)
Definition iter (v : json) : M (list json) :=
  match v with
  | JList l => mret l
  | JDict d => mret (map (fun kv => JStr (fst kv)) d)
  | JStr s => mret (chars s)
  | _ => raise (TypeError "object is not iterable")
  end.

Fixpoint lookup_item (key : string) (d : list (string * json)) : option json :=
  match d with
  | [] => None
  | (k, v) :: rest => if String.eqb k key then Some v else lookup_item key rest
  end.

(** [v[key]] for a string key. *)
Definition getitem (v : json) (key : string) : M json :=
  match v with
  | JDict d => match lookup_item key d with
               | Some x => mret x
               | None => raise (KeyError key)
               end
  | _ => raise (TypeError "indices must be integers, or object is not subscriptable")
  end.

(** [d.get(key, default)] on a mapping. *)
Definition dict_get (d : list (string * json)) (key : string) (default : json) : json :=
  match lookup_item key d with
  | Some x => x
  | None => default
  end.

Definition key_of (v : json) : option pykey :=
  match v with
  | JNull => Some KNone
  | JBool b => Some (KInt (if b then 1 else 0))
  | JNum z => Some (KInt z)
  | JStr s => Some (KStr s)
  | JList _ | JDict _ => None
  end.

(** [v in s] for a set [s]: unhashable values raise. *)
Definition in_set (v : json) (s : gset pykey) : M bool :=
  match key_of v with
  | Some k => mret (bool_decide (k ∈ s))
  | None => raise (TypeError "unhashable type")
  end.

(** [s.update(l)], the elements having been checked hashable before. *)
Definition set_update (s : gset pykey) (l : list json) : gset pykey :=
  s ∪ list_to_set (omap key_of l).

End Py.

(* ===================================================================== *)
(** ** [src/utils.py] *)
(* ===================================================================== *)

Module Utils.
Import Py.

Section WithEnv.
Context (env : Env).

(** The body of the [try] of [openai_request]: one chat completion (with
    [temperature=0], the fixed system message and the caller's prompt) and
    the stripped text of its first choice. Whatever the body raises,
    the request itself or the reading of the answer, is the reply
    [Raised]. [load_config] and the construction of the client are taken
    to succeed. *)
Definition chat_completion (prompt : string) : M string :=
  fun w =>
    let messages := [("system", "You are a helpful assistant."); ("user", prompt)] in
    let w' := World (files w) (trace w ++ [EvChatCreate (MODEL (config env)) messages]) in
    match chat_create env (trace w) (MODEL (config env)) messages with
    | Returned content => (w', Ok (PyStr.strip content))
    | Raised e => (w', Raise e)
    end.

(** The [while retries < config["MAX_RETRIES"]] loop and the two statements
    after it. Each turn either returns or adds one to [retries]. *)
Fixpoint retry_loop (fuel : nat) (prompt : string) (retries : Z) (delay : Q)
  : M string :=
  if retries <? MAX_RETRIES (config env) then
    match fuel with
    | O => diverge
    | S fuel' =>
        try_except (chat_completion prompt)
          (fun e =>
             if is_rate_limit_error e then
               let retries := retries + 1 in
               log WARNING (RateLimitReached delay);;
               sleep delay;;
               let delay := Qmult delay (BACKOFF_FACTOR (config env)) in
               retry_loop fuel' prompt retries delay
             else raise e)
    end
  else
    log ERROR MaxRetriesReached;;
    raise (Exception "Max retries reached for OpenAI request.").

Definition openai_request (prompt : string) : M string :=
  let retries := 0 in
  let delay := INITIAL_DELAY (config env) in
  retry_loop (Z.to_nat (MAX_RETRIES (config env))) prompt retries delay.

End WithEnv.
End Utils.

(* ===================================================================== *)
(** ** [src/extract_skills.py] *)
(* ===================================================================== *)

Module ExtractSkills.
Import Py.

Definition QUERIED_IDS_FILE : string := "data/queried_job_ids.csv".
Definition OUTPUT_FILE : string := "data/job_data.csv".
Definition LINKEDIN_BASE_URL : string := "https://api.scrapingdog.com/linkedinjobs".

Definition LOCATION_IDS : list string :=
  [ "101318387"; "106315325"; "101098412"; "101949407"; "104383890"; "101174742"; "90009540";
    "103366113"; "100025096"; "102199904"; "101282230"; "103035651"; "105015875"; "90009659";
    "101165590"; "90009496"; "104738515"; "90009824"; "100752109"; "91000000"; "91000002"; "91000007";
    "90010383"; "90010409"; "101452733"; "100992797" ].

(** The dictionary appended to [new_jobs]. *)
Record JobRecord := {
  job_position : json;
  company_name : json;
  seniority_level : json;
  job_location : json;
  skills : list string
}.

(** [[skill.strip() for skill in response.split(",") if skill.strip()]] *)
Definition parse_skills (response : string) : list string :=
  flat_map (fun skill => if PyStr.nonempty (PyStr.strip skill)
                         then [PyStr.strip skill] else [])
           (PyStr.split_comma response).

(** Lines 135-136: a non-empty list is replaced by its first element. *)
Definition normalize (job_details : json) : json :=
  match job_details with
  | JList (first :: _) => first
  | _ => job_details
  end.

(** Line 143. *)
Definition job_description_of (job_details : list (string * json)) : json :=
  dict_get job_details "job_description" (JStr EmptyString).

(** Lines 147-153. *)
Definition job_record (job_details : list (string * json)) (skills : list string)
  : JobRecord :=
  {| job_position := dict_get job_details "job_position" (JStr "N/A");
     company_name := dict_get job_details "company_name" (JStr "N/A");
     seniority_level := dict_get job_details "Seniority_level" (JStr "N/A");
     job_location := dict_get job_details "job_location" (JStr "N/A");
     skills := skills |}.

Inductive ctl :=
| Break
| NextPage (page total_job_ids : Z) (queried_ids : gset pykey).

Fixpoint for_each {A} (l : list A) (body : A -> M unit) : M unit :=
  match l with
  | [] => mret tt
  | x :: rest => body x;; for_each rest body
  end.

Section WithEnv.
Context (env : Env).

Definition writerow (path : string) (row : list json) : M unit :=
  emit (EvWriterow path row);;
  append_text path (csv_row env row).

Definition load_queried_ids (file_path : string) : M (gset pykey) :=
  fun w =>
    match files w !! file_path with
    | None => (w, Ok ∅)
    | Some text =>
        (w, Ok (list_to_set (map (fun line => KStr (PyStr.strip line))
                                 (PyStr.file_lines text))))
    end.

Definition save_queried_ids (file_path : string) (job_ids : list json) : M unit :=
  open_a file_path;;
  for_each job_ids (fun job_id => writerow file_path [job_id]).

Definition http_get (url : string) (params : list (string * json)) : M json :=
  fun w =>
    let w' := World (files w) (trace w ++ [EvGet url params]) in
    match requests_get_json env (trace w) url params with
    | Returned v => (w', Ok v)
    | Raised e => (w', Raise e)
    end.

Definition listings_params (field location_id : string) (page : Z)
  : list (string * json) :=
  [ ("api_key", JStr (LINKEDIN_API_KEY (config env)));
    ("field", JStr field);
    ("geoid", JStr location_id);
    ("page", JNum page) ].

Definition details_params (job_id : json) : list (string * json) :=
  [ ("api_key", JStr (LINKEDIN_API_KEY (config env))); ("job_id", job_id) ].

Definition fetch_job_listings (field location_id : string) (page : Z) : M json :=
  http_get LINKEDIN_BASE_URL (listings_params field location_id page).

Definition fetch_job_details (job_id : json) : M json :=
  http_get LINKEDIN_BASE_URL (details_params job_id).

Definition nl : string := String PyStr.LF EmptyString.

(** The f-string of [extract_skills]. *)
Definition prompt_of (job_description : json) : string :=
  nl +:+ "    Extract the most relevant skills from the following job description. " +:+ nl
  +:+ "    Return the skills as a comma-separated list:" +:+ nl
  +:+ "    " +:+ match job_description with
                 | JStr s => s
                 | v => format_value env v
                 end +:+ nl
  +:+ "    ".

Definition extract_skills (job_description : json) : M (list string) :=
  let prompt := prompt_of job_description in
  response ← Utils.openai_request env prompt;
  mret (parse_skills response).

Definition save_job_data (file_path : string) (jobs : list JobRecord) : M unit :=
  let headers := [ JStr "job_position"; JStr "company_name"; JStr "seniority_level";
                   JStr "job_location"; JStr "skills" ] in
  present ← path_exists file_path;
  (if negb present then open_w file_path;; writerow file_path headers else mret tt);;
  open_a file_path;;
  for_each jobs (fun job =>
    writerow file_path
      [ job_position job; company_name job; seniority_level job; job_location job;
        JStr (PyStr.join ", " (skills job)) ]).

(** Lines 134-155: what the guarded block does with the fetched response. *)
Definition process_details (job_id job_details : json)
    (acc : list JobRecord * list json) : M (list JobRecord * list json) :=
  let '(new_jobs, new_job_ids) := acc in
  let job_details := normalize job_details in
  match job_details with
  | JDict d =>
      let job_description := job_description_of d in
      skills ← extract_skills job_description;
      mret ((new_jobs ++ [job_record d skills]), (new_job_ids ++ [job_id]))
  | _ =>
      log ERROR (UnexpectedFormat job_details);;
      mret (new_jobs, new_job_ids)
  end.

(** Lines 131-155: the body of the inner [try]. *)
Definition guarded_job (job_id : json) (acc : list JobRecord * list json)
  : M (list JobRecord * list json) :=
  log INFO (FetchingDetails job_id);;
  job_details ← fetch_job_details job_id;
  process_details job_id job_details acc.

(** Lines 157-162: both handlers log and go on to the next job. *)
Definition job_handler (job_id : json) (acc : list JobRecord * list json) (e : exn)
  : M (list JobRecord * list json) :=
  if is_request_exception e then
    log ERROR (JobRequestFailed job_id e);; mret acc
  else
    log ERROR (JobUnexpectedError job_id e);; mret acc.

(** Lines 126-162: one turn of [for job in job_listings]. *)
Definition process_job (queried_ids : gset pykey) (job : json)
    (acc : list JobRecord * list json) : M (list JobRecord * list json) :=
  job_id ← getitem job "job_id";
  seen ← in_set job_id queried_ids;
  if (seen : bool) then mret acc
  else try_except (guarded_job job_id acc) (job_handler job_id acc).

Fixpoint for_jobs (queried_ids : gset pykey) (job_listings : list json)
    (acc : list JobRecord * list json) : M (list JobRecord * list json) :=
  match job_listings with
  | [] => mret acc
  | job :: rest =>
      acc' ← process_job queried_ids job acc;
      for_jobs queried_ids rest acc'
  end.

(** Lines 164-170. *)
Definition save_page (new_jobs : list JobRecord) (new_job_ids : list json)
    (total_job_ids : Z) (queried_ids : gset pykey) : M (Z * gset pykey) :=
  match new_jobs with
  | _ :: _ =>
      save_job_data OUTPUT_FILE new_jobs;;
      save_queried_ids QUERIED_IDS_FILE new_job_ids;;
      let queried_ids := set_update queried_ids new_job_ids in
      let total_job_ids := total_job_ids + Z.of_nat (length new_job_ids) in
      log INFO (ProcessedNewJobs (Z.of_nat (length new_job_ids)) total_job_ids);;
      mret (total_job_ids, queried_ids)
  | [] => mret (total_job_ids, queried_ids)
  end.

Definition field : string := "data scientist".
Definition max_job_ids : Z := 10000.

(** Lines 114-173: the body of the outer [try]. *)
Definition page_body (location_id : string) (page total_job_ids : Z)
    (queried_ids : gset pykey) : M ctl :=
  log INFO (FetchingPage page);;
  job_listings ← fetch_job_listings field location_id page;
  if negb (truthy job_listings) then
    log INFO NoMoreListings;;
    mret Break
  else
    jobs ← iter job_listings;
    '(new_jobs, new_job_ids) ← for_jobs queried_ids jobs ([], []);
    '(total_job_ids, queried_ids) ←
        save_page new_jobs new_job_ids total_job_ids queried_ids;
    mret (NextPage (page + 1) total_job_ids queried_ids).

(** Lines 175-180. *)
Definition page_handler (e : exn) : M ctl :=
  if is_request_exception e then
    log ERROR (RequestFailed e);; mret Break
  else
    log ERROR (UnexpectedError e);; mret Break.

Definition api_credits_remaining : bool := true.

(** The [while] of lines 112-180; [queried_ids] is the one set shared by
    all locations, so the loop hands it back. *)
Fixpoint while_pages (fuel : nat) (location_id : string) (page total_job_ids : Z)
    (queried_ids : gset pykey) : M (gset pykey) :=
  if (page <=? 100) && (total_job_ids <? max_job_ids) && api_credits_remaining then
    match fuel with
    | O => diverge
    | S fuel' =>
        c ← try_except (page_body location_id page total_job_ids queried_ids)
                       page_handler;
        match c with
        | Break => mret queried_ids
        | NextPage page total_job_ids queried_ids =>
            while_pages fuel' location_id page total_job_ids queried_ids
        end
    end
  else mret queried_ids.

(** Lines 106-180: one turn of [for location_id in LOCATION_IDS]. *)
Definition process_location (location_id : string) (queried_ids : gset pykey)
  : M (gset pykey) :=
  log INFO (ProcessingLocation location_id);;
  let page := 1 in
  let total_job_ids := Z.of_nat (size queried_ids) in
  while_pages 100 location_id page total_job_ids queried_ids.

Fixpoint for_locations (location_ids : list string) (queried_ids : gset pykey)
  : M (gset pykey) :=
  match location_ids with
  | [] => mret queried_ids
  | location_id :: rest =>
      queried_ids ← process_location location_id queried_ids;
      for_locations rest queried_ids
  end.

Definition main : M unit :=
  log INFO PipelineStarting;;
  queried_ids ← load_queried_ids QUERIED_IDS_FILE;
  for_locations LOCATION_IDS queried_ids;;
  log INFO PipelineCompleted.

End WithEnv.
End ExtractSkills.

(* ===================================================================== *)
(** ** Vocabulary of the properties *)
(* ===================================================================== *)

Module Props.
Import Py ExtractSkills.

(** The skill list in the words of the specification: split on commas,
    trim every fragment, drop the empty ones. *)
Definition skills_of_response (response : string) : list string :=
  List.filter PyStr.nonempty (map PyStr.strip (PyStr.split_comma response)).

(** The five fields of a detail response and the keys the driver reads
    them under. *)
Inductive detail_field := Position | Company | Seniority | Location | Description.

Definition field_key (f : detail_field) : string :=
  match f with
  | Position => "job_position"
  | Company => "company_name"
  | Seniority => "Seniority_level"
  | Location => "job_location"
  | Description => "job_description"
  end.

(** The value the driver works with for a field of the mapping [d]. *)
Definition field_value (f : detail_field) (d : list (string * json)) : json :=
  match f with
  | Position => job_position (job_record d [])
  | Company => company_name (job_record d [])
  | Seniority => seniority_level (job_record d [])
  | Location => job_location (job_record d [])
  | Description => job_description_of d
  end.

Definition not_available : json := JStr "N/A".

Definition is_dict (v : json) : bool :=
  match v with JDict _ => true | _ => false end.

(** The message of the handler that takes [e]. *)
Definition job_error (job_id : json) (e : exn) : log_msg :=
  if is_request_exception e then JobRequestFailed job_id e
  else JobUnexpectedError job_id e.

Definition page_error (e : exn) : log_msg :=
  if is_request_exception e then RequestFailed e else UnexpectedError e.

Definition logged (w : world) (evs : list event) : world :=
  World (files w) (trace w ++ evs).

(** The job id of a listing, when it is a mapping that has one. *)
Definition listing_id (job : json) : option json :=
  match job with
  | JDict d => lookup_item "job_id" d
  | _ => None
  end.

(** The row [save_job_data] writes for a record, and the text of rows. *)
Definition sink_headers : list json :=
  [ JStr "job_position"; JStr "company_name"; JStr "seniority_level";
    JStr "job_location"; JStr "skills" ].

Definition sink_row (job : JobRecord) : list json :=
  [ job_position job; company_name job; seniority_level job; job_location job;
    JStr (PyStr.join ", " (skills job)) ].

Definition id_row (job_id : json) : list json := [job_id].

Fixpoint rows_text (csv : list json -> string) (rows : list (list json)) : string :=
  match rows with
  | [] => EmptyString
  | row :: rest => csv row +:+ rows_text csv rest
  end.

(** What the sink file starts from and which header row is written,
    given the file's text before the call ([None]: no file yet). *)
Definition sink_start (csv : list json -> string) (old : option string) : string :=
  match old with
  | Some text => text
  | None => csv sink_headers
  end.

Definition header_events (path : string) (old : option string) : list event :=
  match old with
  | Some _ => []
  | None => [EvWriterow path sink_headers]
  end.

(** The in-memory dedupe set as the trace determines it: every row
    written to the dedupe file is an id that joins the set. *)
Definition replay1 (s : gset pykey) (ev : event) : gset pykey :=
  match ev with
  | EvWriterow path row =>
      if String.eqb path QUERIED_IDS_FILE then set_update s row else s
  | _ => s
  end.

Definition replay (s : gset pykey) (t : list event) : gset pykey :=
  fold_left replay1 t s.

Definition is_write (ev : event) : bool :=
  match ev with EvWriterow _ _ => true | _ => false end.

(** A request that carries a [job_id] parameter asks for an id outside [s]. *)
Definition fresh_fetch (s : gset pykey) (ev : event) : Prop :=
  forall url params job_id k,
    ev = EvGet url params -> lookup_item "job_id" params = Some job_id ->
    key_of job_id = Some k -> k ∉ s.

(** Along the trace, every detail request is for an id that is not in the
    dedupe set as it stands at that moment. *)
Fixpoint audit (s : gset pykey) (t : list event) : Prop :=
  match t with
  | [] => True
  | ev :: rest => fresh_fetch s ev /\ audit (replay1 s ev) rest
  end.

Definition is_get (ev : event) : bool :=
  match ev with EvGet _ _ => true | _ => false end.

(** Every file of [w] is still there in [w'], its old text a prefix of
    the new one. *)
Definition files_grow (w w' : world) : Prop :=
  forall path text, files w !! path = Some text ->
    exists more, files w' !! path = Some (text +:+ more).

(** [m] adds the events [t] to the trace, keeps what the files held, and
    [R] relates [t] to the outcome. *)
Definition does {A} (m : M A) (R : list event -> outcome A -> Prop) : Prop :=
  forall w, exists t,
    trace (m w).1 = trace w ++ t /\ files_grow w (m w).1 /\ R t (m w).2.

(** What one page leaves behind, for the set [s] it started from: the
    audit holds, and the set it hands on is the one the trace determines
    (unchanged when the page stops the pagination). *)
Definition page_post (s : gset pykey) (page : Z) (t : list event) (r : outcome ctl)
  : Prop :=
  audit s t /\
  match r with
  | Ok (NextPage page' _ s') => page' = page + 1 /\ s' = replay s t
  | Ok Break | Raise _ => replay s t = s
  | Diverge => False
  end.

Definition loop_post (s : gset pykey) (t : list event) (r : outcome (gset pykey))
  : Prop :=
  audit s t /\ r = Ok (replay s t).

(** [m] returns or raises, and every event it adds satisfies [P]. *)
Definition calm {A} (P : event -> Prop) (m : M A) : Prop :=
  does m (fun t r => r <> Diverge /\ Forall P t).

(** Events that are neither a request to the listings API nor a row
    written to a file: log lines, sleeps, chat completions. *)
Definition internal (ev : event) : Prop :=
  match ev with
  | EvGet _ _ | EvWriterow _ _ => False
  | _ => True
  end.

(** No write, and no detail request for an id of [s]. *)
Definition quiet (s : gset pykey) (ev : event) : Prop :=
  is_write ev = false /\ fresh_fetch s ev.

End Props.

(* ===================================================================== *)
(** ** Sample environments *)
(* ===================================================================== *)

Module Sample.
Import Py ExtractSkills.

Definition cfg : Config :=
  {| INITIAL_DELAY := 1; MAX_RETRIES := 2; BACKOFF_FACTOR := 2;
     MODEL := "gpt-4o-mini"; LINKEDIN_API_KEY := "secret" |}.

Definition cell (v : json) : string :=
  match v with JStr s => s | _ => "?" end.

Definition job (id : string) : json := JDict [("job_id", JStr id)].

Definition analyst : list (string * json) :=
  [("job_position", JStr "Data Scientist"); ("job_description", JStr "We use Python.")].

(** Listings: three jobs on page 1, two on page 2, a network error on
    page 3. Details: job 2 fails, job 3 is not a mapping, job 4 is a bare
    mapping, the others a one-element list. *)
Definition api (h : list event) (url : string) (params : list (string * json))
  : reply json :=
  match lookup_item "job_id" params with
  | Some (JStr "2") => Raised (RequestException "503 Server Error")
  | Some (JStr "3") => Returned (JStr "not found")
  | Some (JStr "4") => Returned (JDict analyst)
  | Some _ => Returned (JList [JDict analyst])
  | None =>
      match lookup_item "page" params with
      | Some (JNum 1) => Returned (JList [job "1"; job "2"; job "3"])
      | Some (JNum 2) => Returned (JList [job "1"; job "4"])
      | Some (JNum 3) => Raised (RequestException "Connection timed out")
      | _ => Returned (JList [])
      end
  end.

Definition env : Env :=
  {| config := cfg;
     chat_create := fun _ _ _ => Returned "Python, SQL,  Java ,,";
     requests_get_json := api;
     format_value := fun _ => "?";
     csv_row := fun row =>
       PyStr.join "," (map cell row) +:+ String PyStr.CR (String PyStr.LF EmptyString) |}.

(** The same, with a provider that always signals rate limiting. *)
Definition env_limited : Env :=
  {| config := cfg;
     chat_create := fun _ _ _ => Raised RateLimitError;
     requests_get_json := api;
     format_value := format_value env;
     csv_row := csv_row env |}.

Definition fresh : world := World ∅ [].

Definition ids_text : string :=
  "7" +:+ String PyStr.CR (String PyStr.LF (" 8 " +:+ String PyStr.LF "9")).

Definition resumed : world := World {[ QUERIED_IDS_FILE := ids_text ]} [].

(** A dedupe set that has reached the cap: the ids 0 .. 9999. *)
Definition ids_upto (n : nat) : gset pykey :=
  list_to_set (map (fun i => KInt (Z.of_nat i)) (seq 0 n)).

Definition full : gset pykey := ids_upto (Z.to_nat 10000).

Definition record1 : JobRecord := job_record analyst ["Python"; "SQL"].

End Sample.

(* ===================================================================== *)
(** ** Further vocabulary: traces, frames, clean skills, plain ids *)
(* ===================================================================== *)

Module Obs.
Import Py ExtractSkills Props.

Definition is_chat (ev : event) : bool :=
  match ev with EvChatCreate _ _ => true | _ => false end.

Definition is_sleep (ev : event) : bool :=
  match ev with EvSleep _ => true | _ => false end.

Definition count (p : event -> bool) (t : list event) : nat :=
  length (List.filter p t).

(** A request without [job_id] parameter: a request for a page of listings. *)
Definition is_listings_call (ev : event) : bool :=
  match ev with
  | EvGet _ params =>
      match lookup_item "job_id" params with Some _ => false | None => true end
  | _ => false
  end.

Definition not_listings (ev : event) : Prop := is_listings_call ev = false.

(** [m] leaves every file outside [F] as it was (present or not). *)
Definition touches_only {A} (F : string -> Prop) (m : M A) : Prop :=
  forall w path, ~ F path -> files (m w).1 !! path = files w !! path.

Definition no_file (path : string) : Prop := False.

Definition data_file (path : string) : Prop :=
  path = OUTPUT_FILE \/ path = QUERIED_IDS_FILE.

(** A skill as [parse_skills] delivers it. *)
Definition clean (skill : string) : Prop :=
  PyStr.trimmed skill /\ skill <> EmptyString /\ PyStr.has_comma skill = false.

Fixpoint has_newline (s : string) : bool :=
  match s with
  | EmptyString => false
  | String c r => Ascii.eqb c PyStr.LF || Ascii.eqb c PyStr.CR || has_newline r
  end.

(** The text is empty or its last character is a line feed. *)
Fixpoint complete (s : string) : bool :=
  match s with
  | EmptyString => true
  | String c EmptyString => Ascii.eqb c PyStr.LF
  | String _ r => complete r
  end.

Definition CRLF : string := String PyStr.CR (String PyStr.LF EmptyString).

(** A job id as the dedupe file keeps it unchanged: a string without
    whitespace at its ends and without line break. *)
Definition plain_id (id : string) : Prop :=
  PyStr.trimmed id /\ has_newline id = false.

(** A listing whose id is hashable and in [s]. *)
Definition known (s : gset pykey) (job : json) : Prop :=
  exists job_id k, listing_id job = Some job_id /\ key_of job_id = Some k /\ k ∈ s.

(** The accumulators of the loop over a page only grow, by as many
    records as ids, and every id added is hashable and outside [s]. *)
Definition grown (s : gset pykey) (acc acc' : list JobRecord * list json) : Prop :=
  exists (a : list JobRecord) (b : list json),
    acc'.1 = acc.1 ++ a /\ acc'.2 = acc.2 ++ b /\ length a = length b /\
    Forall (fun job_id => exists k, key_of job_id = Some k /\ k ∉ s) b.

Section WithEnv.
Context (env : Env).

(** Lines 118-173: the body of the outer [try] after the listings request. *)
Definition after_fetch (page total_job_ids : Z) (queried_ids : gset pykey)
    (job_listings : json) : M ctl :=
  if negb (truthy job_listings) then
    log INFO NoMoreListings;;
    mret Break
  else
    jobs ← iter job_listings;
    '(new_jobs, new_job_ids) ← for_jobs env queried_ids jobs ([], []);
    '(total_job_ids, queried_ids) ←
        save_page env new_jobs new_job_ids total_job_ids queried_ids;
    mret (NextPage (page + 1) total_job_ids queried_ids).

Definition attempt (prompt : string) : event :=
  EvChatCreate (MODEL (config env))
    [("system", "You are a helpful assistant."); ("user", prompt)].

(** [k] rate-limited turns of the retry loop, the first sleeping [delay]. *)
Fixpoint backoff (prompt : string) (k : nat) (delay : Q) : list event :=
  match k with
  | O => []
  | S k' =>
      [ attempt prompt; EvLog WARNING (RateLimitReached delay); EvSleep delay ]
      ++ backoff prompt k' (Qmult delay (BACKOFF_FACTOR (config env)))
  end.

(** The delay after [k] rate-limited turns. *)
Fixpoint scaled (k : nat) (delay : Q) : Q :=
  match k with
  | O => delay
  | S k' => scaled k' (Qmult delay (BACKOFF_FACTOR (config env)))
  end.

(** The requests for the pages [page], [page + 1], ... ([k] of them). *)
Fixpoint page_calls (location_id : string) (page : Z) (k : nat) : list event :=
  match k with
  | O => []
  | S k' =>
      EvGet LINKEDIN_BASE_URL (listings_params env field location_id page)
      :: page_calls location_id (page + 1) k'
  end.

(** The shape of everything a run sends out or writes. *)
Definition expected (ev : event) : Prop :=
  match ev with
  | EvGet url params =>
      url = LINKEDIN_BASE_URL /\
      lookup_item "api_key" params = Some (JStr (LINKEDIN_API_KEY (config env)))
  | EvChatCreate model messages =>
      model = MODEL (config env) /\
      exists prompt,
        messages = [("system", "You are a helpful assistant."); ("user", prompt)]
  | EvWriterow path row =>
      (path = OUTPUT_FILE /\ length row = 5%nat) \/
      (path = QUERIED_IDS_FILE /\ length row = 1%nat)
  | EvLog _ _ | EvSleep _ => True
  end.

(** Every answer to a listings request is a list of listings whose ids are
    all in [s]. *)
Definition all_listed_known (s : gset pykey) : Prop :=
  forall h location_id page v,
    requests_get_json env h LINKEDIN_BASE_URL
      (listings_params env field location_id page) = Returned v ->
    exists l, v = JList l /\ Forall (known s) l.

(** What a run that meets only known ids may do: log, and ask for pages. *)
Definition idle (ev : event) : Prop :=
  match ev with
  | EvLog _ _ => True
  | EvGet _ _ => is_listings_call ev = true
  | _ => False
  end.

End WithEnv.
End Obs.

Module Sample2.
Import Py ExtractSkills.

(** Page 1 lists job 1 and an entry without id; the rest as in [Sample]. *)
Definition api_broken (h : list event) (url : string)
    (params : list (string * json)) : reply json :=
  match lookup_item "job_id" params, lookup_item "page" params with
  | None, Some (JNum 1) =>
      Returned (JList [Sample.job "1"; JDict [("job_title", JStr "Analyst")]])
  | _, _ => Sample.api h url params
  end.

Definition env_broken : Env :=
  {| config := Sample.cfg;
     chat_create := chat_create Sample.env;
     requests_get_json := api_broken;
     format_value := format_value Sample.env;
     csv_row := csv_row Sample.env |}.

(** The provider is rate limited once, then answers. *)
Definition env_recovering : Env :=
  {| config := Sample.cfg;
     chat_create := fun h _ _ =>
       match h with
       | [] => Raised RateLimitError
       | _ => Returned " Python, SQL "
       end;
     requests_get_json := Sample.api;
     format_value := format_value Sample.env;
     csv_row := csv_row Sample.env |}.

(** The provider fails for another reason. *)
Definition env_down : Env :=
  {| config := Sample.cfg;
     chat_create := fun _ _ _ => Raised (Exception "401 Unauthorized");
     requests_get_json := Sample.api;
     format_value := format_value Sample.env;
     csv_row := csv_row Sample.env |}.

(** Every page lists jobs 1 and 2 only. *)
Definition env_stale : Env :=
  {| config := Sample.cfg;
     chat_create := chat_create Sample.env;
     requests_get_json := fun _ _ _ => Returned (JList [Sample.job "1"; Sample.job "2"]);
     format_value := format_value Sample.env;
     csv_row := csv_row Sample.env |}.

(** Every listings request is answered with an error object. *)
Definition env_refused : Env :=
  {| config := Sample.cfg;
     chat_create := chat_create Sample.env;
     requests_get_json := fun _ _ _ =>
       Returned (JDict [("message", JStr "Rate limit exceeded")]);
     format_value := format_value Sample.env;
     csv_row := csv_row Sample.env |}.

Definition kept_text : string :=
  "1" +:+ String PyStr.CR (String PyStr.LF ("2" +:+ String PyStr.LF EmptyString)).

(** A second run: the dedupe file holds the ids 1 and 2. *)
Definition second_run : world := World {[ QUERIED_IDS_FILE := kept_text ]} [].

End Sample2.

Section StringFacts.
Import PyStr.

Lemma append_nil_l (s : string) : EmptyString +:+ s = s.
Proof. reflexivity. Qed.

Lemma append_cons (c : ascii) (s t : string) : String c s +:+ t = String c (s +:+ t).
Proof. reflexivity. Qed.

Lemma append_empty_r (s : string) : s +:+ EmptyString = s.
Proof.
  induction s as [|c s IH]; [reflexivity |].
  now rewrite append_cons, IH.
Qed.

Lemma append_assoc (a b c : string) : (a +:+ b) +:+ c = a +:+ (b +:+ c).
Proof.
  induction a as [|x a IH]; [reflexivity |].
  now rewrite !append_cons, IH.
Qed.

Lemma lstrip_all_space (s : string) : all_space s = true -> lstrip s = EmptyString.
Proof.
  induction s as [|c s IH]; simpl; [reflexivity |].
  intros H. apply andb_prop in H as [Hc Hs]. rewrite Hc. auto.
Qed.

Lemma lstrip_app_space (pre s : string) :
  all_space pre = true -> lstrip (pre +:+ s) = lstrip s.
Proof.
  induction pre as [|c pre IH]; [reflexivity |].
  rewrite append_cons. simpl.
  intros H. apply andb_prop in H as [Hc Hs]. rewrite Hc. auto.
Qed.

Lemma lstrip_decomp (s : string) :
  exists pre, s = pre +:+ lstrip s /\ all_space pre = true.
Proof.
  induction s as [|c s [pre [E Hp]]]; simpl.
  - exists EmptyString. split; reflexivity.
  - destruct (isspace c) eqn:Hc.
    + exists (String c pre). rewrite append_cons, <- E. simpl. rewrite Hc, Hp.
      split; reflexivity.
    + exists EmptyString. split; reflexivity.
Qed.

Lemma lstrip_first (s : string) (c : ascii) :
  first_char (lstrip s) = Some c -> isspace c = false.
Proof.
  induction s as [|x s IH]; simpl; [discriminate |].
  destruct (isspace x) eqn:Hx; [exact IH |].
  simpl. intros [= <-]. exact Hx.
Qed.

Lemma rstrip_all_space (s : string) : all_space s = true -> rstrip s = EmptyString.
Proof.
  induction s as [|c s IH]; simpl; [reflexivity |].
  intros H. apply andb_prop in H as [Hc Hs]. rewrite (IH Hs), Hc. reflexivity.
Qed.

Lemma rstrip_app_space (s post : string) :
  all_space post = true -> rstrip (s +:+ post) = rstrip s.
Proof.
  intros H. induction s as [|c s IH].
  - rewrite append_nil_l. now apply rstrip_all_space.
  - rewrite append_cons. simpl. now rewrite IH.
Qed.

Lemma rstrip_id (s : string) :
  (forall c, last_char s = Some c -> isspace c = false) -> rstrip s = s.
Proof.
  induction s as [|x s IH]; [reflexivity |].
  destruct s as [|y s'].
  - intros H. simpl. now rewrite (H x eq_refl).
  - intros H. change (rstrip (String x (String y s')))
      with (match rstrip (String y s') with
            | EmptyString => if isspace x then EmptyString else String x EmptyString
            | r' => String x r'
            end).
    rewrite (IH H). reflexivity.
Qed.

Lemma rstrip_decomp (s : string) :
  exists post, s = rstrip s +:+ post /\ all_space post = true.
Proof.
  induction s as [|c s [post [E Hp]]]; simpl.
  - exists EmptyString. split; reflexivity.
  - destruct (rstrip s) as [|y r] eqn:Hr.
    + rewrite append_nil_l in E. subst post.
      destruct (isspace c) eqn:Hc.
      * exists (String c s). rewrite append_nil_l. simpl. rewrite Hc, Hp.
        split; reflexivity.
      * exists s. split; [reflexivity | exact Hp].
    + exists post. rewrite append_cons, <- E. split; [reflexivity | exact Hp].
Qed.

Lemma rstrip_last (s : string) (c : ascii) :
  last_char (rstrip s) = Some c -> isspace c = false.
Proof.
  induction s as [|x s IH]; simpl; [discriminate |].
  destruct (rstrip s) as [|y r] eqn:Hr.
  - destruct (isspace x) eqn:Hx; simpl; [discriminate |].
    intros [= <-]. exact Hx.
  - exact IH.
Qed.

Lemma rstrip_first (s : string) (c : ascii) :
  first_char (rstrip s) = Some c -> first_char s = Some c.
Proof.
  destruct s as [|x s]; simpl; [discriminate |].
  destruct (rstrip s); [destruct (isspace x); simpl; [discriminate |] |]; simpl; auto.
Qed.

Lemma strip_trimmed (s : string) : trimmed (strip s).
Proof.
  unfold trimmed, strip. split; intros c H.
  - apply rstrip_first in H. now apply lstrip_first in H.
  - now apply rstrip_last in H.
Qed.

Lemma strip_decomp (s : string) :
  exists pre post,
    s = pre +:+ strip s +:+ post /\ all_space pre = true /\ all_space post = true.
Proof.
  destruct (lstrip_decomp s) as [pre [E1 H1]].
  destruct (rstrip_decomp (lstrip s)) as [post [E2 H2]].
  exists pre, post. unfold strip. rewrite <- E2. auto.
Qed.

Lemma strip_unique (pre t post : string) :
  all_space pre = true -> all_space post = true -> trimmed t ->
  strip (pre +:+ t +:+ post) = t.
Proof.
  intros Hpre Hpost [Hf Hl]. unfold strip.
  rewrite lstrip_app_space by exact Hpre.
  destruct t as [|c t].
  - rewrite append_nil_l, lstrip_all_space by exact Hpost. reflexivity.
  - rewrite append_cons. simpl lstrip. rewrite (Hf c eq_refl).
    rewrite <- append_cons.
    rewrite rstrip_app_space by exact Hpost.
    now apply rstrip_id.
Qed.

Lemma split_comma_not_nil (s : string) : split_comma s <> [].
Proof.
  induction s as [|c s IH]; simpl; [discriminate |].
  destruct (Ascii.eqb c comma); [discriminate |].
  destruct (split_comma s); [contradiction | discriminate].
Qed.

Lemma join_cons (sep x : string) (l : list string) :
  l <> [] -> join sep (x :: l) = x +:+ sep +:+ join sep l.
Proof. destruct l; [contradiction | reflexivity]. Qed.

Lemma join_split_comma (s : string) : join "," (split_comma s) = s.
Proof.
  induction s as [|c s IH]; simpl; [reflexivity |].
  destruct (Ascii.eqb c comma) eqn:Hc.
  - apply Ascii.eqb_eq in Hc. subst c.
    rewrite join_cons by apply split_comma_not_nil. now rewrite IH.
  - destruct (split_comma s) as [|h t] eqn:Hs; [now apply split_comma_not_nil in Hs |].
    destruct t as [|h' t'].
    + simpl in *. now rewrite IH.
    + rewrite join_cons by discriminate.
      rewrite join_cons in IH by discriminate.
      now rewrite append_cons, IH.
Qed.

Lemma split_comma_no_comma (s : string) :
  Forall (fun f => has_comma f = false) (split_comma s).
Proof.
  induction s as [|c s IH]; simpl.
  - constructor; [reflexivity | constructor].
  - destruct (Ascii.eqb c comma) eqn:Hc.
    + constructor; [reflexivity | exact IH].
    + destruct (split_comma s) as [|h t].
      * constructor; [simpl; now rewrite Hc | constructor].
      * inversion IH as [|? ? Hh Ht]; subst.
        constructor; [simpl; now rewrite Hc, Hh | assumption].
Qed.

Lemma split_comma_fragment (f : string) :
  has_comma f = false -> split_comma f = [f].
Proof.
  induction f as [|c f IH]; simpl; [reflexivity |].
  intros H. apply orb_false_elim in H as [Hc Hf]. rewrite Hc, (IH Hf). reflexivity.
Qed.

Lemma split_comma_app (f rest : string) :
  has_comma f = false ->
  split_comma (f +:+ "," +:+ rest) = f :: split_comma rest.
Proof.
  induction f as [|c f IH]; [reflexivity |].
  rewrite append_cons. simpl.
  intros H. apply orb_false_elim in H as [Hc Hf]. rewrite Hc, (IH Hf). reflexivity.
Qed.

Lemma split_comma_join (l : list string) :
  l <> [] -> Forall (fun f => has_comma f = false) l ->
  split_comma (join "," l) = l.
Proof.
  induction l as [|x l IH]; [contradiction |].
  intros _ H. inversion H as [|? ? Hx Hl]; subst.
  destruct l as [|y l'].
  - simpl. now apply split_comma_fragment.
  - rewrite join_cons by discriminate.
    rewrite split_comma_app by exact Hx.
    now rewrite IH.
Qed.

End StringFacts.

(* ===================================================================== *)
(** ** Running the effect monad *)
(* ===================================================================== *)

Ltac run_m :=
  unfold mbind, Py.M_bind, mret, Py.M_ret, Py.log, Py.sleep, Py.emit, Py.raise,
    Py.diverge in *; simpl in *.

Section MonadFacts.
Import Py.

Lemma bind_ok {A B} (m : M A) (f : A -> M B) (w w' : world) (a : A) :
  m w = (w', Ok a) -> (m ≫= f) w = f a w'.
Proof. intros H. unfold mbind, M_bind. now rewrite H. Qed.

Lemma bind_raise {A B} (m : M A) (f : A -> M B) (w w' : world) (e : exn) :
  m w = (w', Raise e) -> (m ≫= f) w = (w', Raise e).
Proof. intros H. unfold mbind, M_bind. now rewrite H. Qed.

Lemma bind_diverge {A B} (m : M A) (f : A -> M B) (w w' : world) :
  m w = (w', Diverge) -> (m ≫= f) w = (w', Diverge).
Proof. intros H. unfold mbind, M_bind. now rewrite H. Qed.

Lemma try_ok {A} (m : M A) (h : exn -> M A) (w w' : world) (a : A) :
  m w = (w', Ok a) -> try_except m h w = (w', Ok a).
Proof. intros H. unfold try_except. now rewrite H. Qed.

Lemma try_raise {A} (m : M A) (h : exn -> M A) (w w' : world) (e : exn) :
  m w = (w', Raise e) -> try_except m h w = h e w'.
Proof. intros H. unfold try_except. now rewrite H. Qed.

Lemma try_diverge {A} (m : M A) (h : exn -> M A) (w w' : world) :
  m w = (w', Diverge) -> try_except m h w = (w', Diverge).
Proof. intros H. unfold try_except. now rewrite H. Qed.

Lemma log_run (lvl : level) (m : log_msg) (w : world) :
  log lvl m w = (Props.logged w [EvLog lvl m], Ok tt).
Proof. reflexivity. Qed.

Lemma logged_logged (w : world) (t1 t2 : list event) :
  Props.logged (Props.logged w t1) t2 = Props.logged w (t1 ++ t2).
Proof. unfold Props.logged. simpl. now rewrite <- app_assoc. Qed.

Lemma logged_nil (w : world) : Props.logged w [] = w.
Proof. destruct w. unfold Props.logged. simpl. now rewrite app_nil_r. Qed.

End MonadFacts.

(* ===================================================================== *)
(** ** The retry wrapper ([openai_request]) *)
(* ===================================================================== *)

Section Retry.
Import Py Utils Props.
Context (env : Env).

Lemma chat_completion_raised (prompt : string) (w : world) (e : exn) :
  chat_create env (trace w) (MODEL (config env))
    [("system", "You are a helpful assistant."); ("user", prompt)] = Raised e ->
  chat_completion env prompt w =
    (logged w [EvChatCreate (MODEL (config env))
                 [("system", "You are a helpful assistant."); ("user", prompt)]],
     Raise e).
Proof. intros H. unfold chat_completion. now rewrite H. Qed.


Lemma retry_loop_exhausted (fuel : nat) (prompt : string) (retries : Z) (delay : Q)
    (w : world) :
  (retries <? MAX_RETRIES (config env)) = false ->
  retry_loop env fuel prompt retries delay w =
    (logged w [EvLog ERROR MaxRetriesReached],
     Raise (Exception "Max retries reached for OpenAI request.")).
Proof. intros H. destruct fuel; simpl; rewrite H; reflexivity. Qed.

(** One rate-limited turn of the loop. *)
Lemma retry_loop_limited (fuel : nat) (prompt : string) (retries : Z) (delay : Q)
    (w : world) :
  (retries <? MAX_RETRIES (config env)) = true ->
  chat_create env (trace w) (MODEL (config env))
    [("system", "You are a helpful assistant."); ("user", prompt)]
    = Raised RateLimitError ->
  retry_loop env (S fuel) prompt retries delay w =
    retry_loop env fuel prompt (retries + 1)
      (Qmult delay (BACKOFF_FACTOR (config env)))
      (logged w [ EvChatCreate (MODEL (config env))
                    [("system", "You are a helpful assistant."); ("user", prompt)];
                  EvLog WARNING (RateLimitReached delay); EvSleep delay ]).
Proof.
  intros H Hc. simpl. rewrite H.
  erewrite try_raise by (apply chat_completion_raised, Hc).
  simpl. run_m. unfold logged. simpl. rewrite <- !app_assoc. reflexivity.
Qed.

(** C3. With [MAX_RETRIES = 2] and a provider that answers every attempt
    with a rate-limit error, [openai_request] makes exactly two attempts,
    sleeps [INITIAL_DELAY] after the first and [INITIAL_DELAY *
    BACKOFF_FACTOR] after the second, and ends by raising the terminal
    error: no value is returned. *)
Theorem C3_retry_exhaustion (prompt : string) (w : world) :
  MAX_RETRIES (config env) = 2 ->
  (forall h model messages, chat_create env h model messages = Raised RateLimitError) ->
  let attempt :=
    EvChatCreate (MODEL (config env))
      [("system", "You are a helpful assistant."); ("user", prompt)] in
  let d0 := INITIAL_DELAY (config env) in
  let d1 := Qmult d0 (BACKOFF_FACTOR (config env)) in
  openai_request env prompt w =
    (logged w [ attempt; EvLog WARNING (RateLimitReached d0); EvSleep d0;
                attempt; EvLog WARNING (RateLimitReached d1); EvSleep d1;
                EvLog ERROR MaxRetriesReached ],
     Raise (Exception "Max retries reached for OpenAI request.")).
Proof.
  intros Hmax Hchat attempt d0 d1.
  unfold openai_request. rewrite Hmax.
  change (Z.to_nat 2) with 2%nat.
  rewrite retry_loop_limited by (rewrite ?Hmax; first [reflexivity | apply Hchat]).
  rewrite retry_loop_limited by (rewrite ?Hmax; first [reflexivity | apply Hchat]).
  rewrite retry_loop_exhausted by (rewrite Hmax; reflexivity).
  unfold logged. simpl. rewrite <- !app_assoc. reflexivity.
Qed.

End Retry.

Lemma C3_retry_exhaustion_witness :
  Utils.openai_request Sample.env_limited "Which skills?" Sample.fresh =
    (Props.logged Sample.fresh
       [ Py.EvChatCreate "gpt-4o-mini"
           [("system", "You are a helpful assistant."); ("user", "Which skills?")];
         Py.EvLog Py.WARNING (Py.RateLimitReached 1); Py.EvSleep 1;
         Py.EvChatCreate "gpt-4o-mini"
           [("system", "You are a helpful assistant."); ("user", "Which skills?")];
         Py.EvLog Py.WARNING (Py.RateLimitReached (Qmult 1 2)); Py.EvSleep (Qmult 1 2);
         Py.EvLog Py.ERROR Py.MaxRetriesReached ],
     Py.Raise (Py.Exception "Max retries reached for OpenAI request.")).
Proof.
  apply (C3_retry_exhaustion Sample.env_limited "Which skills?" Sample.fresh).
  - reflexivity.
  - intros h model messages. reflexivity.
Defined.

(* ===================================================================== *)
(** ** Skill parsing ([extract_skills]) *)
(* ===================================================================== *)

Section Skills.
Import Py ExtractSkills Props.
Context (env : Env).

(** The comprehension filters on the stripped fragment and keeps the
    stripped fragment: the same as trimming all, then dropping the empty. *)
Lemma parse_skills_spec (response : string) :
  parse_skills response = skills_of_response response.
Proof.
  unfold parse_skills, skills_of_response.
  induction (PyStr.split_comma response) as [|skill rest IH]; simpl; [reflexivity |].
  rewrite IH. now destruct (PyStr.nonempty (PyStr.strip skill)).
Qed.

(** What reaches the caller has no whitespace at either end and is not
    empty. *)
Lemma skills_of_response_clean (response skill : string) :
  In skill (skills_of_response response) ->
  PyStr.trimmed skill /\ skill <> EmptyString.
Proof.
  unfold skills_of_response. intros H.
  apply filter_In in H as [H Hne].
  apply in_map_iff in H as [fragment [<- _]].
  split; [apply strip_trimmed |].
  intros E. rewrite E in Hne. discriminate.
Qed.

(** C2. Whatever string the language-model client returns, [extract_skills]
    returns its comma-separated fragments, trimmed, the empty ones dropped,
    in their order; the response "Python, SQL,  Java ,," gives exactly
    Python, SQL, Java. *)
Theorem C2_extract_skills_parses (job_description : json) (w w' : world)
    (response : string) :
  Utils.openai_request env (prompt_of env job_description) w = (w', Ok response) ->
  extract_skills env job_description w = (w', Ok (skills_of_response response)) /\
  (response = "Python, SQL,  Java ,," ->
   extract_skills env job_description w = (w', Ok ["Python"; "SQL"; "Java"])).
Proof.
  intros H.
  assert (E : extract_skills env job_description w
              = (w', Ok (skills_of_response response))).
  { unfold extract_skills. erewrite bind_ok by exact H.
    now rewrite parse_skills_spec. }
  split; [exact E |].
  intros ->. exact E.
Qed.

End Skills.

Lemma C2_extract_skills_parses_witness :
  ExtractSkills.extract_skills Sample.env (Py.JStr "We use Python.") Sample.fresh =
    (Props.logged Sample.fresh
       [Py.EvChatCreate "gpt-4o-mini"
          [("system", "You are a helpful assistant.");
           ("user", ExtractSkills.prompt_of Sample.env (Py.JStr "We use Python."))]],
     Py.Ok ["Python"; "SQL"; "Java"]).
Proof.
  apply (C2_extract_skills_parses Sample.env (Py.JStr "We use Python.") Sample.fresh
           _ "Python, SQL,  Java ,,"); reflexivity.
Defined.

(* ===================================================================== *)
(** ** The dedupe file ([load_queried_ids]) *)
(* ===================================================================== *)

Section Dedupe.
Import Py ExtractSkills Props.

(** C10. Without a dedupe file [load_queried_ids] returns the empty set
    and does not raise; with one it returns exactly the set of the file's
    lines, each without its surrounding whitespace. *)
Theorem C10_load_queried_ids (file_path : string) (w : world) :
  (files w !! file_path = None ->
   load_queried_ids file_path w = (w, Ok ∅)) /\
  (forall text, files w !! file_path = Some text ->
   exists ids : gset pykey,
     load_queried_ids file_path w = (w, Ok ids) /\
     forall k, k ∈ ids <->
       exists line pre t post,
         In line (PyStr.file_lines text) /\
         line = pre +:+ t +:+ post /\
         PyStr.all_space pre = true /\ PyStr.all_space post = true /\
         PyStr.trimmed t /\ k = KStr t).
Proof.
  split.
  - intros H. unfold load_queried_ids. now rewrite H.
  - intros text H. unfold load_queried_ids. rewrite H.
    eexists. split; [reflexivity |].
    intros k. rewrite elem_of_list_to_set, list_elem_of_In, in_map_iff. split.
    + intros [line [<- Hin]].
      destruct (strip_decomp line) as [pre [post [E [Hpre Hpost]]]].
      exists line, pre, (PyStr.strip line), post.
      repeat split; auto; apply strip_trimmed.
    + intros [line [pre [t [post [Hin [-> [Hpre [Hpost [Ht ->]]]]]]]]].
      exists (pre +:+ t +:+ post). split; [| exact Hin].
      now rewrite strip_unique.
Qed.

End Dedupe.

Lemma C10_load_queried_ids_witness :
  ExtractSkills.load_queried_ids ExtractSkills.QUERIED_IDS_FILE Sample.fresh
    = (Sample.fresh, Py.Ok ∅) /\
  exists ids : gset Py.pykey,
    ExtractSkills.load_queried_ids ExtractSkills.QUERIED_IDS_FILE
      Sample.resumed = (Sample.resumed, Py.Ok ids) /\
    (Py.KStr "8" ∈ ids <->
       exists line pre t post,
         In line (PyStr.file_lines Sample.ids_text) /\
         line = pre +:+ t +:+ post /\
         PyStr.all_space pre = true /\ PyStr.all_space post = true /\
         PyStr.trimmed t /\ Py.KStr "8" = Py.KStr t).
Proof.
  split.
  - apply (C10_load_queried_ids ExtractSkills.QUERIED_IDS_FILE Sample.fresh).
    reflexivity.
  - destruct (proj2 (C10_load_queried_ids ExtractSkills.QUERIED_IDS_FILE
                       Sample.resumed) Sample.ids_text eq_refl) as [ids [E H]].
    exists ids. split; [exact E | apply H].
Defined.

(* ===================================================================== *)
(** ** Rules for [does] *)
(* ===================================================================== *)

Section DoesRules.
Import Py Props.

Lemma files_grow_refl (w : world) : files_grow w w.
Proof.
  intros path text H. exists EmptyString. now rewrite append_empty_r.
Qed.

Lemma files_grow_trans (w1 w2 w3 : world) :
  files_grow w1 w2 -> files_grow w2 w3 -> files_grow w1 w3.
Proof.
  intros H12 H23 path text H.
  destruct (H12 _ _ H) as [m1 H1]. destruct (H23 _ _ H1) as [m2 H2].
  exists (m1 +:+ m2). now rewrite <- append_assoc.
Qed.

Lemma files_grow_same (w w' : world) : files w' = files w -> files_grow w w'.
Proof.
  intros E path text H. exists EmptyString. now rewrite E, append_empty_r.
Qed.

Lemma does_ret {A} (a : A) (R : list event -> outcome A -> Prop) :
  R [] (Ok a) -> does (mret a) R.
Proof.
  intros H w. exists []. simpl. rewrite app_nil_r.
  split; [reflexivity | split; [apply files_grow_refl | exact H]].
Qed.

Lemma does_raise {A} (e : exn) (R : list event -> outcome A -> Prop) :
  R [] (Raise e) -> does (raise e) R.
Proof.
  intros H w. exists []. simpl. rewrite app_nil_r.
  split; [reflexivity | split; [apply files_grow_refl | exact H]].
Qed.

Lemma does_emit (ev : event) (R : list event -> outcome unit -> Prop) :
  R [ev] (Ok tt) -> does (emit ev) R.
Proof.
  intros H w. exists [ev]. simpl.
  split; [reflexivity | split; [now apply files_grow_same | exact H]].
Qed.

Lemma does_log (lvl : level) (m : log_msg) (R : list event -> outcome unit -> Prop) :
  R [EvLog lvl m] (Ok tt) -> does (log lvl m) R.
Proof. apply does_emit. Qed.

Lemma does_log_exact (lvl : level) (m : log_msg) :
  does (log lvl m) (fun t r => t = [EvLog lvl m] /\ r = Ok tt).
Proof. apply does_log. now split. Qed.

Lemma does_weaken {A} (m : M A) (Q R : list event -> outcome A -> Prop) :
  does m Q -> (forall t r, Q t r -> R t r) -> does m R.
Proof.
  intros Hm HQR w. destruct (Hm w) as [t [Ht [Hg HQ]]].
  exists t. auto.
Qed.

Lemma does_and {A} (m : M A) (Q R : list event -> outcome A -> Prop) :
  does m Q -> does m R -> does m (fun t r => Q t r /\ R t r).
Proof.
  intros HQ HR w. destruct (HQ w) as [t [Ht [Hg Hq]]].
  destruct (HR w) as [t' [Ht' [_ Hr]]].
  assert (t' = t) as -> by (rewrite Ht in Ht'; now apply app_inv_head in Ht').
  exists t. auto.
Qed.

Lemma does_bind {A B} (m : M A) (f : A -> M B)
    (Q : list event -> outcome A -> Prop) (R : list event -> outcome B -> Prop) :
  does m Q ->
  (forall t a, Q t (Ok a) -> does (f a) (fun t' r => R (t ++ t') r)) ->
  (forall t e, Q t (Raise e) -> R t (Raise e)) ->
  (forall t, Q t Diverge -> R t Diverge) ->
  does (m ≫= f) R.
Proof.
  intros Hm Hf He Hd w.
  destruct (Hm w) as [t [Ht [Hg HQ]]].
  unfold mbind, M_bind.
  destruct (m w) as [w1 [a | e |]] eqn:E; simpl in *.
  - destruct (Hf t a HQ w1) as [t' [Ht' [Hg' HR]]].
    exists (t ++ t'). rewrite Ht', Ht, <- app_assoc.
    split; [reflexivity | split; [eapply files_grow_trans; eauto | exact HR]].
  - exists t. auto.
  - exists t. auto.
Qed.

Lemma does_try {A} (m : M A) (h : exn -> M A)
    (Q R : list event -> outcome A -> Prop) :
  does m Q ->
  (forall t e, Q t (Raise e) -> does (h e) (fun t' r => R (t ++ t') r)) ->
  (forall t a, Q t (Ok a) -> R t (Ok a)) ->
  (forall t, Q t Diverge -> R t Diverge) ->
  does (try_except m h) R.
Proof.
  intros Hm Hh Ha Hd w.
  destruct (Hm w) as [t [Ht [Hg HQ]]].
  unfold try_except.
  destruct (m w) as [w1 [a | e |]] eqn:E; simpl in *.
  - exists t. auto.
  - destruct (Hh t e HQ w1) as [t' [Ht' [Hg' HR]]].
    exists (t ++ t'). rewrite Ht', Ht, <- app_assoc.
    split; [reflexivity | split; [eapply files_grow_trans; eauto | exact HR]].
  - exists t. auto.
Qed.

(** A computation that does not depend on the world. *)
Lemma does_pure {A} (m : M A) (o : outcome A) (R : list event -> outcome A -> Prop) :
  (forall w, m w = (w, o)) -> R [] o -> does m R.
Proof.
  intros Hm H w. exists []. rewrite Hm. simpl. rewrite app_nil_r.
  split; [reflexivity | split; [apply files_grow_refl | exact H]].
Qed.

End DoesRules.

Section CalmRules.
Import Py Props.

Lemma calm_ret {A} (P : event -> Prop) (a : A) : calm P (mret a).
Proof. apply does_ret. split; [discriminate | constructor]. Qed.

Lemma calm_raise {A} (P : event -> Prop) (e : exn) : calm P (raise e : M A).
Proof. apply does_raise. split; [discriminate | constructor]. Qed.

Lemma calm_emit (P : event -> Prop) (ev : event) : P ev -> calm P (emit ev).
Proof. intros H. apply does_emit. split; [discriminate | now repeat constructor]. Qed.

Lemma calm_log (P : event -> Prop) (lvl : level) (m : log_msg) :
  P (EvLog lvl m) -> calm P (log lvl m).
Proof. apply calm_emit. Qed.

Lemma calm_bind {A B} (P : event -> Prop) (m : M A) (f : A -> M B) :
  calm P m -> (forall a, calm P (f a)) -> calm P (m ≫= f).
Proof.
  intros Hm Hf. eapply does_bind; [exact Hm | | |].
  - intros t a [_ Ht]. eapply does_weaken; [apply Hf |].
    intros t' r [Hr Ht']. split; [exact Hr | now apply Forall_app].
  - intros t e [_ Ht]. split; [discriminate | exact Ht].
  - intros t [Hd _]. contradiction.
Qed.

Lemma calm_try {A} (P : event -> Prop) (m : M A) (h : exn -> M A) :
  calm P m -> (forall e, calm P (h e)) -> calm P (try_except m h).
Proof.
  intros Hm Hh. eapply does_try; [exact Hm | | |].
  - intros t e [_ Ht]. eapply does_weaken; [apply Hh |].
    intros t' r [Hr Ht']. split; [exact Hr | now apply Forall_app].
  - intros t a [_ Ht]. split; [discriminate | exact Ht].
  - intros t [Hd _]. contradiction.
Qed.

Lemma calm_weaken {A} (P Q : event -> Prop) (m : M A) :
  (forall ev, P ev -> Q ev) -> calm P m -> calm Q m.
Proof.
  intros HPQ Hm. eapply does_weaken; [exact Hm |].
  intros t r [Hr Ht]. split; [exact Hr |].
  eapply Forall_impl; [exact Ht | exact HPQ].
Qed.

Lemma calm_getitem (P : event -> Prop) (v : json) (key : string) :
  calm P (getitem v key).
Proof.
  destruct v; simpl; try apply calm_raise.
  destruct (lookup_item key d); [apply calm_ret | apply calm_raise].
Qed.

Lemma calm_iter (P : event -> Prop) (v : json) : calm P (iter v).
Proof. destruct v; simpl; first [apply calm_ret | apply calm_raise]. Qed.

End CalmRules.

Section LeafRules.
Import Py Props Utils ExtractSkills.
Context (env : Env).

Lemma calm_chat_completion (P : event -> Prop) (prompt : string) :
  (forall ev, internal ev -> P ev) -> calm P (chat_completion env prompt).
Proof.
  intros HP w. unfold chat_completion.
  eexists [_]. 
  destruct (chat_create env (trace w) _ _); simpl;
    (split; [reflexivity |]; split; [now apply files_grow_same |]);
    (split; [discriminate |]); repeat constructor; now apply HP.
Qed.

Lemma calm_retry_loop (P : event -> Prop) (fuel : nat) (prompt : string)
    (retries : Z) (delay : Q) :
  (forall ev, internal ev -> P ev) ->
  (Z.to_nat (MAX_RETRIES (config env) - retries) <= fuel)%nat ->
  calm P (retry_loop env fuel prompt retries delay).
Proof.
  intros HP. revert retries delay.
  induction fuel as [|fuel IH]; intros retries delay Hfuel; simpl.
  - destruct (retries <? MAX_RETRIES (config env)) eqn:E; [apply Z.ltb_lt in E; lia |].
    apply calm_bind; [apply calm_log, HP; exact I | intros _; apply calm_raise].
  - destruct (retries <? MAX_RETRIES (config env)) eqn:E.
    + apply calm_try; [now apply calm_chat_completion |].
      intros e. destruct (is_rate_limit_error e); [| apply calm_raise].
      apply calm_bind; [apply calm_log, HP; exact I | intros _].
      apply calm_bind; [apply calm_emit, HP; exact I | intros _].
      apply IH. apply Z.ltb_lt in E. lia.
    + apply calm_bind; [apply calm_log, HP; exact I | intros _; apply calm_raise].
Qed.

(** [openai_request] always comes back: with a value or with an exception. *)
Lemma calm_openai_request (P : event -> Prop) (prompt : string) :
  (forall ev, internal ev -> P ev) -> calm P (openai_request env prompt).
Proof.
  intros HP. unfold openai_request. apply calm_retry_loop; [exact HP |].
  rewrite Z.sub_0_r. lia.
Qed.

Lemma calm_extract_skills (P : event -> Prop) (job_description : json) :
  (forall ev, internal ev -> P ev) -> calm P (extract_skills env job_description).
Proof.
  intros HP. unfold extract_skills.
  apply calm_bind; [now apply calm_openai_request | intros r; apply calm_ret].
Qed.

Lemma calm_http_get (P : event -> Prop) (url : string) (params : list (string * json)) :
  P (EvGet url params) -> calm P (http_get env url params).
Proof.
  intros HP w. unfold http_get. exists [EvGet url params].
  destruct (requests_get_json env (trace w) url params); simpl;
    (split; [reflexivity |]; split; [now apply files_grow_same |]);
    (split; [discriminate |]); now repeat constructor.
Qed.

End LeafRules.

(* ===================================================================== *)
(** ** One listing: the guarded block and its handlers *)
(* ===================================================================== *)

Section Jobs.
Import Py Props Utils ExtractSkills.
Context (env : Env).

Lemma calm_ext {A} (P : event -> Prop) (m m' : M A) :
  (forall w, m w = m' w) -> calm P m -> calm P m'.
Proof.
  intros E H w. destruct (H w) as [t Ht]. exists t. now rewrite <- E.
Qed.

Lemma internal_quiet (s : gset pykey) (ev : event) : internal ev -> quiet s ev.
Proof.
  intros H. split.
  - now destruct ev.
  - intros url params job_id k ->. contradiction.
Qed.

Lemma http_get_returned (url : string) (params : list (string * json)) (w : world)
    (v : json) :
  requests_get_json env (trace w) url params = Returned v ->
  http_get env url params w = (logged w [EvGet url params], Ok v).
Proof. intros H. unfold http_get. now rewrite H. Qed.

Lemma http_get_raised (url : string) (params : list (string * json)) (w : world)
    (e : exn) :
  requests_get_json env (trace w) url params = Raised e ->
  http_get env url params w = (logged w [EvGet url params], Raise e).
Proof. intros H. unfold http_get. now rewrite H. Qed.

Lemma guarded_job_fetched (job_id : json) (acc : list JobRecord * list json)
    (w : world) (v : json) :
  requests_get_json env (trace w ++ [EvLog INFO (FetchingDetails job_id)])
    LINKEDIN_BASE_URL (details_params env job_id) = Returned v ->
  guarded_job env job_id acc w =
    process_details env job_id v acc
      (logged w [ EvLog INFO (FetchingDetails job_id);
                  EvGet LINKEDIN_BASE_URL (details_params env job_id) ]).
Proof.
  intros H. unfold guarded_job, fetch_job_details.
  erewrite bind_ok by apply log_run.
  erewrite bind_ok by (apply http_get_returned; exact H).
  now rewrite logged_logged.
Qed.

Lemma guarded_job_fetch_raised (job_id : json) (acc : list JobRecord * list json)
    (w : world) (e : exn) :
  requests_get_json env (trace w ++ [EvLog INFO (FetchingDetails job_id)])
    LINKEDIN_BASE_URL (details_params env job_id) = Raised e ->
  guarded_job env job_id acc w =
    (logged w [ EvLog INFO (FetchingDetails job_id);
                EvGet LINKEDIN_BASE_URL (details_params env job_id) ],
     Raise e).
Proof.
  intros H. unfold guarded_job, fetch_job_details.
  erewrite bind_ok by apply log_run.
  erewrite bind_raise by (apply http_get_raised; exact H).
  now rewrite logged_logged.
Qed.

Lemma job_handler_run (job_id : json) (acc : list JobRecord * list json) (e : exn)
    (w : world) :
  job_handler job_id acc e w = (logged w [EvLog ERROR (job_error job_id e)], Ok acc).
Proof. unfold job_handler, job_error. now destruct (is_request_exception e). Qed.

Lemma getitem_listing (job job_id : json) (w : world) :
  listing_id job = Some job_id -> getitem job "job_id" w = (w, Ok job_id).
Proof.
  destruct job; simpl; try discriminate. intros H. now rewrite H.
Qed.

(** The id is read before the inner [try]: a listing without one raises
    into the handlers of the page. *)
Lemma process_job_no_id (s : gset pykey) (d : list (string * json))
    (acc : list JobRecord * list json) (w : world) :
  lookup_item "job_id" d = None ->
  process_job env s (JDict d) acc w = (w, Raise (KeyError "job_id")).
Proof.
  intros H. unfold process_job. apply bind_raise. simpl. now rewrite H.
Qed.

Lemma process_job_new (s : gset pykey) (job job_id : json) (k : pykey)
    (acc : list JobRecord * list json) (w : world) :
  listing_id job = Some job_id -> key_of job_id = Some k -> k ∉ s ->
  process_job env s job acc w =
    try_except (guarded_job env job_id acc) (job_handler job_id acc) w.
Proof.
  intros Hid Hk Hs. unfold process_job.
  erewrite bind_ok by (apply getitem_listing; exact Hid).
  unfold in_set. rewrite Hk.
  erewrite bind_ok by reflexivity.
  now rewrite bool_decide_eq_false_2.
Qed.

Lemma process_job_seen (s : gset pykey) (job job_id : json) (k : pykey)
    (acc : list JobRecord * list json) (w : world) :
  listing_id job = Some job_id -> key_of job_id = Some k -> k ∈ s ->
  process_job env s job acc w = (w, Ok acc).
Proof.
  intros Hid Hk Hs. unfold process_job.
  erewrite bind_ok by (apply getitem_listing; exact Hid).
  unfold in_set. rewrite Hk.
  erewrite bind_ok by reflexivity.
  now rewrite bool_decide_eq_true_2.
Qed.

Lemma for_jobs_cons (s : gset pykey) (job : json) (rest : list json)
    (acc acc' : list JobRecord * list json) (w w' : world) :
  process_job env s job acc w = (w', Ok acc') ->
  for_jobs env s (job :: rest) acc w = for_jobs env s rest acc' w'.
Proof. intros H. simpl. now erewrite bind_ok by exact H. Qed.

Lemma process_details_not_dict (job_id v : json) (acc : list JobRecord * list json)
    (w : world) :
  is_dict (normalize v) = false ->
  process_details env job_id v acc w =
    (logged w [EvLog ERROR (UnexpectedFormat (normalize v))], Ok acc).
Proof.
  intros H. unfold process_details. destruct acc as [new_jobs new_job_ids].
  destruct (normalize v); try discriminate; reflexivity.
Qed.

Lemma process_details_dict (job_id : json) (d : list (string * json))
    (new_jobs : list JobRecord) (new_job_ids : list json) (w w' : world)
    (skills : list string) :
  extract_skills env (job_description_of d) w = (w', Ok skills) ->
  process_details env job_id (JDict d) (new_jobs, new_job_ids) w =
    (w', Ok (new_jobs ++ [job_record d skills], new_job_ids ++ [job_id])).
Proof.
  intros H. unfold process_details. simpl.
  now erewrite bind_ok by exact H.
Qed.

Lemma calm_process_details (s : gset pykey) (job_id v : json)
    (acc : list JobRecord * list json) :
  calm (quiet s) (process_details env job_id v acc).
Proof.
  unfold process_details. destruct acc as [new_jobs new_job_ids].
  destruct (normalize v);
    try (apply calm_bind; [apply calm_log, internal_quiet; exact I
                          | intros _; apply calm_ret]).
  apply calm_bind; [| intros skills; apply calm_ret].
  apply calm_extract_skills. apply internal_quiet.
Qed.

Lemma quiet_details_request (s : gset pykey) (job_id : json) (k : pykey) :
  key_of job_id = Some k -> k ∉ s ->
  quiet s (EvGet LINKEDIN_BASE_URL (details_params env job_id)).
Proof.
  intros Hk Hs. split; [reflexivity |].
  intros url params job_id' k' [= <- <-]. simpl. intros [= <-] Hk'.
  rewrite Hk in Hk'. now injection Hk' as <-.
Qed.

(** One turn of the loop over a page, for a set [s]: it comes back, writes
    nothing, and asks for no detail of an id of [s]. *)
Lemma calm_process_job (s : gset pykey) (job : json)
    (acc : list JobRecord * list json) :
  calm (quiet s) (process_job env s job acc).
Proof.
  unfold process_job. apply calm_bind; [apply calm_getitem | intros job_id].
  unfold in_set. destruct (key_of job_id) as [k|] eqn:Hk.
  - eapply calm_ext; [intros w; symmetry; apply bind_ok; reflexivity |].
    destruct (bool_decide (k ∈ s)) eqn:Hs; [apply calm_ret |].
    apply bool_decide_eq_false in Hs.
    apply calm_try.
    + unfold guarded_job.
      apply calm_bind; [apply calm_log, internal_quiet; exact I | intros _].
      apply calm_bind; [| intros v; apply calm_process_details].
      apply calm_http_get. now apply quiet_details_request with k.
    + intros e. unfold job_handler.
      destruct (is_request_exception e);
        (apply calm_bind; [apply calm_log, internal_quiet; exact I
                          | intros _; apply calm_ret]).
  - apply calm_bind; [apply calm_raise | intros seen].
    destruct seen; [apply calm_ret |].
    apply calm_try; [| intros e]. 
    + unfold guarded_job.
      apply calm_bind; [apply calm_log, internal_quiet; exact I | intros _].
      apply calm_bind; [| intros v; apply calm_process_details].
      apply calm_http_get. split; [reflexivity |].
      intros url params job_id' k' [= <- <-]. simpl. intros [= <-] Hk'. congruence.
    + unfold job_handler.
      destruct (is_request_exception e);
        (apply calm_bind; [apply calm_log, internal_quiet; exact I
                          | intros _; apply calm_ret]).
Qed.

Lemma calm_for_jobs (s : gset pykey) (jobs : list json)
    (acc : list JobRecord * list json) :
  calm (quiet s) (for_jobs env s jobs acc).
Proof.
  revert acc. induction jobs as [|job rest IH]; intros acc; simpl.
  - apply calm_ret.
  - apply calm_bind; [apply calm_process_job | intros acc'; apply IH].
Qed.

End Jobs.

(* ===================================================================== *)
(** ** Flushing a page: the sink file and the dedupe file *)
(* ===================================================================== *)

Section Saving.
Import Py Props ExtractSkills.
Context (env : Env).

Lemma world_eta (w : world) : World (files w) (trace w) = w.
Proof. now destruct w. Qed.

Lemma writerow_run (path : string) (row : list json) (w : world) (text : string) :
  files w !! path = Some text ->
  writerow env path row w =
    (World (<[path := text +:+ csv_row env row]> (files w))
           (trace w ++ [EvWriterow path row]), Ok tt).
Proof.
  intros H. unfold writerow. run_m. unfold append_text. simpl. now rewrite H.
Qed.

Lemma for_each_writerow {A} (f : A -> list json) (path : string) (l : list A)
    (w : world) (text : string) :
  files w !! path = Some text ->
  for_each l (fun x => writerow env path (f x)) w =
    (World (<[path := text +:+ rows_text (csv_row env) (map f l)]> (files w))
           (trace w ++ map (fun x => EvWriterow path (f x)) l), Ok tt).
Proof.
  revert w text. induction l as [|x l IH]; intros w text H; simpl.
  - rewrite append_empty_r, app_nil_r, insert_id by exact H.
    now rewrite world_eta.
  - erewrite bind_ok by (apply writerow_run; exact H).
    rewrite (IH _ (text +:+ csv_row env (f x))) by (simpl; apply lookup_insert_eq).
    simpl. now rewrite insert_insert_eq, append_assoc, <- app_assoc.
Qed.

Lemma save_queried_ids_run (path : string) (job_ids : list json) (w : world) :
  save_queried_ids env path job_ids w =
    (World (<[path := default EmptyString (files w !! path)
                      +:+ rows_text (csv_row env) (map id_row job_ids)]> (files w))
           (trace w ++ map (fun job_id => EvWriterow path (id_row job_id)) job_ids),
     Ok tt).
Proof.
  unfold save_queried_ids.
  erewrite bind_ok by reflexivity.
  rewrite (for_each_writerow id_row path job_ids _
             (default EmptyString (files w !! path)))
    by (simpl; apply lookup_insert_eq).
  simpl. now rewrite insert_insert_eq.
Qed.

Lemma save_job_data_run (path : string) (jobs : list JobRecord) (w : world) :
  save_job_data env path jobs w =
    (World (<[path := sink_start (csv_row env) (files w !! path)
                      +:+ rows_text (csv_row env) (map sink_row jobs)]> (files w))
           (trace w ++ header_events path (files w !! path)
                   ++ map (fun job => EvWriterow path (sink_row job)) jobs),
     Ok tt).
Proof.
  unfold save_job_data, path_exists.
  erewrite bind_ok by reflexivity.
  destruct (files w !! path) as [text|] eqn:E.
  - rewrite bool_decide_eq_true_2 by eauto. simpl.
    erewrite bind_ok by reflexivity.
    erewrite bind_ok by reflexivity.
    rewrite (for_each_writerow sink_row path jobs _ text)
      by (simpl; rewrite E; apply lookup_insert_eq).
    simpl. rewrite E. simpl. now rewrite insert_insert_eq.
  - rewrite bool_decide_eq_false_2 by (intros [x Hx]; discriminate). simpl.
    erewrite bind_ok.
    2:{ erewrite bind_ok by reflexivity.
        apply (writerow_run path _ _ EmptyString). simpl. apply lookup_insert_eq. }
    erewrite bind_ok by reflexivity.
    rewrite (for_each_writerow sink_row path jobs _ (csv_row env sink_headers)).
    2:{ simpl. rewrite !lookup_insert_eq. reflexivity. }
    simpl. rewrite !lookup_insert_eq. simpl.
    now rewrite !insert_insert_eq, <- app_assoc.
Qed.

(** The page flush, spelled out. *)
Lemma save_page_run (job : JobRecord) (more : list JobRecord)
    (new_job_ids : list json) (total_job_ids : Z) (queried_ids : gset pykey)
    (w : world) :
  let new_jobs := job :: more in
  let total := total_job_ids + Z.of_nat (length new_job_ids) in
  save_page env new_jobs new_job_ids total_job_ids queried_ids w =
    (World
       (<[QUERIED_IDS_FILE :=
            default EmptyString (files w !! QUERIED_IDS_FILE)
            +:+ rows_text (csv_row env) (map id_row new_job_ids)]>
          (<[OUTPUT_FILE :=
               sink_start (csv_row env) (files w !! OUTPUT_FILE)
               +:+ rows_text (csv_row env) (map sink_row new_jobs)]> (files w)))
       (trace w
          ++ (header_events OUTPUT_FILE (files w !! OUTPUT_FILE)
              ++ map (fun j => EvWriterow OUTPUT_FILE (sink_row j)) new_jobs)
          ++ map (fun job_id => EvWriterow QUERIED_IDS_FILE (id_row job_id)) new_job_ids
          ++ [EvLog INFO (ProcessedNewJobs (Z.of_nat (length new_job_ids)) total)]),
     Ok (total, set_update queried_ids new_job_ids)).
Proof.
  intros new_jobs total. unfold save_page. subst new_jobs. cbv iota.
  erewrite bind_ok by apply save_job_data_run.
  erewrite bind_ok by apply save_queried_ids_run.
  erewrite bind_ok by apply log_run.
  unfold logged. simpl.
  rewrite lookup_insert_ne by discriminate.
  now rewrite <- !app_assoc.
Qed.

End Saving.

(* ===================================================================== *)
(** ** Pages, locations and the whole run *)
(* ===================================================================== *)

Section Pages.
Import Py Props ExtractSkills.
Context (env : Env).

Lemma replay_app (s : gset pykey) (t1 t2 : list event) :
  replay s (t1 ++ t2) = replay (replay s t1) t2.
Proof. unfold replay. apply fold_left_app. Qed.

Lemma audit_app (s : gset pykey) (t1 t2 : list event) :
  audit s (t1 ++ t2) <-> audit s t1 /\ audit (replay s t1) t2.
Proof.
  revert s. induction t1 as [|ev t1 IH]; intros s; simpl.
  - tauto.
  - rewrite IH. unfold replay. simpl. tauto.
Qed.

Lemma audit_quiet (s : gset pykey) (t : list event) :
  Forall (quiet s) t -> audit s t /\ replay s t = s.
Proof.
  induction 1 as [|ev t [Hw Hf] _ [IHa IHr]]; [split; [exact I | reflexivity] |].
  assert (E : replay1 s ev = s) by (destruct ev; try reflexivity; discriminate).
  simpl. unfold replay in *. simpl. rewrite E. auto.
Qed.

Lemma audit_no_get (s : gset pykey) (t : list event) :
  Forall (fun ev => is_get ev = false) t -> audit s t.
Proof.
  intros H. revert s. induction H as [|ev t Hev _ IH]; intros s; simpl; [exact I |].
  split; [| apply IH].
  intros url params job_id k ->. discriminate.
Qed.

Lemma replay_sink_rows {A} (s : gset pykey) (f : A -> list json) (l : list A) :
  replay s (map (fun x => EvWriterow OUTPUT_FILE (f x)) l) = s.
Proof. induction l as [|x l IH]; [reflexivity | exact IH]. Qed.

Lemma set_update_cons (s : gset pykey) (job_id : json) (l : list json) :
  set_update (set_update s [job_id]) l = set_update s (job_id :: l).
Proof.
  unfold set_update. simpl. destruct (key_of job_id); simpl.
  - now rewrite union_empty_r_L, <- (assoc_L (∪)).
  - now rewrite union_empty_r_L.
Qed.

Lemma set_update_nil (s : gset pykey) : set_update s [] = s.
Proof. unfold set_update. simpl. apply union_empty_r_L. Qed.

Lemma replay_id_rows (s : gset pykey) (job_ids : list json) :
  replay s (map (fun job_id => EvWriterow QUERIED_IDS_FILE (id_row job_id)) job_ids)
  = set_update s job_ids.
Proof.
  revert s. induction job_ids as [|job_id l IH]; intros s.
  - now rewrite set_update_nil.
  - change (replay (set_update s [job_id])
              (map (fun job_id => EvWriterow QUERIED_IDS_FILE (id_row job_id)) l)
            = set_update s (job_id :: l)).
    now rewrite IH, set_update_cons.
Qed.

Lemma writes_no_get {A} (path : string) (f : A -> list json) (l : list A) :
  Forall (fun ev => is_get ev = false) (map (fun x => EvWriterow path (f x)) l).
Proof. induction l; simpl; constructor; auto. Qed.

Lemma does_save_page (new_jobs : list JobRecord) (new_job_ids : list json)
    (total_job_ids : Z) (s : gset pykey) :
  does (save_page env new_jobs new_job_ids total_job_ids s)
       (fun t r => Forall (fun ev => is_get ev = false) t /\
                   exists total, r = Ok (total, replay s t)).
Proof.
  destruct new_jobs as [|job more].
  - apply does_ret. split; [constructor | now exists total_job_ids].
  - intros w. rewrite save_page_run. cbn [fst snd trace].
    eexists. split; [reflexivity |]. split; [| split].
    + intros path text H. simpl.
      destruct (decide (path = QUERIED_IDS_FILE)) as [-> | Hq].
      * rewrite lookup_insert_eq, H. simpl. eauto.
      * rewrite lookup_insert_ne by congruence.
        destruct (decide (path = OUTPUT_FILE)) as [-> | Ho].
        -- rewrite lookup_insert_eq, H. simpl. eauto.
        -- rewrite lookup_insert_ne by congruence.
           exists EmptyString. now rewrite append_empty_r.
    + repeat (apply Forall_app; split).
      * destruct (files w !! OUTPUT_FILE); repeat constructor.
      * apply (writes_no_get OUTPUT_FILE sink_row (job :: more)).
      * apply writes_no_get.
      * repeat constructor.
    + eexists. f_equal. f_equal.
      rewrite !replay_app.
      assert (E : replay s (header_events OUTPUT_FILE (files w !! OUTPUT_FILE)) = s)
        by (destruct (files w !! OUTPUT_FILE); reflexivity).
      rewrite E.
      rewrite (replay_sink_rows s sink_row (job :: more)).
      now rewrite replay_id_rows.
Qed.

Lemma page_post_prefix (s : gset pykey) (page : Z) (t t' : list event)
    (r : outcome ctl) :
  Forall (quiet s) t -> page_post s page t' r -> page_post s page (t ++ t') r.
Proof.
  intros Hq [Ha Hr]. apply audit_quiet in Hq as [Hqa Hqr].
  unfold page_post. rewrite audit_app, replay_app, Hqr. auto.
Qed.

Lemma page_post_raise (s : gset pykey) (page : Z) (t : list event) (e : exn) :
  Forall (quiet s) t -> page_post s page t (Raise e).
Proof. intros Hq. apply audit_quiet in Hq. exact Hq. Qed.

Lemma page_bind {A} (s : gset pykey) (page : Z) (m : M A) (f : A -> M ctl) :
  calm (quiet s) m ->
  (forall a, does (f a) (page_post s page)) ->
  does (m ≫= f) (page_post s page).
Proof.
  intros Hm Hf. eapply does_bind; [exact Hm | | |].
  - intros t a [_ Hq]. eapply does_weaken; [apply Hf |].
    intros t' r. now apply page_post_prefix.
  - intros t e [_ Hq]. now apply page_post_raise.
  - intros t [Hd _]. contradiction.
Qed.

Lemma quiet_listings_request (s : gset pykey) (location_id : string) (page : Z) :
  quiet s (EvGet LINKEDIN_BASE_URL (listings_params env field location_id page)).
Proof.
  split; [reflexivity |].
  intros url params job_id k [= <- <-]. discriminate.
Qed.

Lemma does_page_body (location_id : string) (page total_job_ids : Z)
    (s : gset pykey) :
  does (page_body env location_id page total_job_ids s) (page_post s page).
Proof.
  unfold page_body.
  apply page_bind; [apply calm_log, internal_quiet; exact I | intros _].
  apply page_bind; [apply calm_http_get, quiet_listings_request | intros job_listings].
  destruct (truthy job_listings); simpl.
  - apply page_bind; [apply calm_iter | intros jobs].
    apply page_bind; [apply calm_for_jobs | intros [new_jobs new_job_ids]].
    eapply does_bind; [apply does_save_page | | |].
    + intros t [total s'] [Hg [total' [= -> ->]]].
      apply does_ret. rewrite app_nil_r.
      split; [now apply audit_no_get | split; reflexivity].
    + intros t e [_ [total' H]]. discriminate.
    + intros t [_ [total' H]]. discriminate.
  - apply page_bind; [apply calm_log, internal_quiet; exact I | intros _].
    apply does_ret. split; [exact I | reflexivity].
Qed.

(** The outer [try] with its handlers: the pagination either stops with
    the set as it was, or goes to the next page with the set the trace
    determines. *)
Lemma does_guarded_page (location_id : string) (page total_job_ids : Z)
    (s : gset pykey) :
  does (try_except (page_body env location_id page total_job_ids s) page_handler)
       (fun t r => audit s t /\
                   ((r = Ok Break /\ replay s t = s) \/
                    exists total, r = Ok (NextPage (page + 1) total (replay s t)))).
Proof.
  eapply does_try; [apply does_page_body | | |].
  - intros t e [Ha Hr]. unfold page_handler.
    assert (H : forall m, does (log ERROR m;; mret Break)
                  (fun t' r => audit s (t ++ t') /\
                     ((r = Ok Break /\ replay s (t ++ t') = s) \/
                      exists total,
                        r = Ok (NextPage (page + 1) total (replay s (t ++ t')))))).
    { intros m. eapply does_bind; [apply does_log_exact | | |].
      - intros t' [] [-> _]. apply does_ret. rewrite app_nil_r.
        rewrite audit_app, replay_app. simpl.
        split; [split; [exact Ha | split; [| exact I]] | left; now split].
        intros url params job_id k [=].
      - intros t' e' [_ [=]].
      - intros t' [_ [=]]. }
    destruct (is_request_exception e); apply H.
  - intros t [| page' total' s'] [Ha Hr].
    + split; [exact Ha | left; now split].
    + destruct Hr as [-> ->]. split; [exact Ha | right; now exists total'].
  - intros t [_ []].
Qed.

Lemma does_while_pages (fuel : nat) (location_id : string) (page total_job_ids : Z)
    (s : gset pykey) :
  (Z.to_nat (101 - page) <= fuel)%nat ->
  does (while_pages env fuel location_id page total_job_ids s) (loop_post s).
Proof.
  revert page total_job_ids s.
  induction fuel as [|fuel IH]; intros page total s Hfuel; simpl.
  - destruct (page <=? 100) eqn:E; [apply Z.leb_le in E; lia |].
    apply does_ret. split; [exact I | reflexivity].
  - destruct ((page <=? 100) && (total <? max_job_ids) && api_credits_remaining)
      eqn:E; [| apply does_ret; split; [exact I | reflexivity]].
    eapply does_bind; [apply does_guarded_page | | |].
    + intros t c [Ha [[[= ->] Hr] | [total' [= ->]]]].
      * apply does_ret. rewrite app_nil_r. split; [exact Ha | now rewrite Hr].
      * eapply does_weaken; [apply IH; lia |].
        intros t' r [Ha' ->]. split; [| now rewrite replay_app].
        apply audit_app. now split.
    + intros t e [_ [[[=] _] | [total' [=]]]].
    + intros t [_ [[[=] _] | [total' [=]]]].
Qed.

Lemma does_process_location (location_id : string) (s : gset pykey) :
  does (process_location env location_id s) (loop_post s).
Proof.
  unfold process_location.
  eapply does_bind; [apply does_log_exact | | |].
  - intros t [] [-> _]. eapply does_weaken; [apply does_while_pages; simpl; lia |].
    intros t' r [Ha ->]. split; [| reflexivity].
    split; [intros url params job_id k [=] | exact Ha].
  - intros t e [_ [=]].
  - intros t [_ [=]].
Qed.

Lemma does_for_locations (location_ids : list string) (s : gset pykey) :
  does (for_locations env location_ids s) (loop_post s).
Proof.
  revert s. induction location_ids as [|location_id rest IH]; intros s; simpl.
  - apply does_ret. split; [exact I | reflexivity].
  - eapply does_bind; [apply does_process_location | | |].
    + intros t s' [Ha [= ->]]. eapply does_weaken; [apply IH |].
      intros t' r [Ha' ->]. split; [| now rewrite replay_app].
      apply audit_app. now split.
    + intros t e [_ [=]].
    + intros t [_ [=]].
Qed.

(** Every location comes back with a set, whatever the services answer. *)
Lemma process_location_returns (location_id : string) (s : gset pykey) (w : world) :
  exists w' s',
    process_location env location_id s w = (w', Ok s') /\ files_grow w w'.
Proof.
  destruct (does_process_location location_id s w) as [t [Ht [Hg [_ Hr]]]].
  destruct (process_location env location_id s w) as [w' r]. simpl in *.
  subst r. eauto.
Qed.

Lemma for_locations_returns (location_ids : list string) (s : gset pykey)
    (w : world) :
  exists w' s',
    for_locations env location_ids s w = (w', Ok s') /\ files_grow w w'.
Proof.
  destruct (does_for_locations location_ids s w) as [t [Ht [Hg [_ Hr]]]].
  destruct (for_locations env location_ids s w) as [w' r]. simpl in *.
  subst r. eauto.
Qed.

Lemma load_queried_ids_run (file_path : string) (w : world) :
  exists s, load_queried_ids file_path w = (w, Ok s).
Proof.
  unfold load_queried_ids. destruct (files w !! file_path); eauto.
Qed.

(** The run ends normally, and what the files held is still there. *)
Lemma main_returns (w : world) :
  exists w', main env w = (w', Ok tt) /\ files_grow w w'.
Proof.
  unfold main. generalize LOCATION_IDS. intros location_ids.
  erewrite bind_ok by apply log_run.
  destruct (load_queried_ids_run QUERIED_IDS_FILE (logged w [EvLog INFO PipelineStarting]))
    as [s Hs].
  erewrite bind_ok by exact Hs.
  destruct (for_locations_returns location_ids s
              (logged w [EvLog INFO PipelineStarting])) as [w1 [s1 [H1 Hg]]].
  erewrite bind_ok by exact H1.
  rewrite log_run. eexists. split; [reflexivity |].
  intros path text H. destruct (Hg path text H) as [more Hm]. eauto.
Qed.

(** The audit of a whole run, from the set loaded at the start. *)
Lemma main_audit (w : world) (s : gset pykey) :
  load_queried_ids QUERIED_IDS_FILE w = (w, Ok s) ->
  exists t, trace (main env w).1 = trace w ++ t /\ audit s t.
Proof.
  intros Hs. unfold main. generalize LOCATION_IDS. intros location_ids.
  erewrite bind_ok by apply log_run.
  assert (Hs' : load_queried_ids QUERIED_IDS_FILE (logged w [EvLog INFO PipelineStarting])
                = (logged w [EvLog INFO PipelineStarting], Ok s)).
  { unfold load_queried_ids in *. simpl.
    destruct (files w !! QUERIED_IDS_FILE); now injection Hs as <-. }
  erewrite bind_ok by exact Hs'.
  destruct (does_for_locations location_ids s (logged w [EvLog INFO PipelineStarting]))
    as [t [Ht [_ [Ha Hr]]]].
  destruct (for_locations env location_ids s (logged w [EvLog INFO PipelineStarting]))
    as [w1 r] eqn:E. cbn [fst snd] in *. subst r.
  erewrite bind_ok by exact E.
  rewrite log_run. simpl. rewrite Ht.
  exists ([EvLog INFO PipelineStarting] ++ t ++ [EvLog INFO PipelineCompleted]).
  split; [unfold logged; simpl; now rewrite <- !app_assoc |].
  apply audit_app. split; [split; [intros url params job_id k [=] | exact I] |].
  apply audit_app. split; [exact Ha |].
  split; [intros url params job_id k [=] | exact I].
Qed.

End Pages.

(* ===================================================================== *)
(** ** The driver: containment, deduplication, cap, flush *)
(* ===================================================================== *)

Section Driver.
Import Py Props ExtractSkills.
Context (env : Env).

(** C1, as the code has it. For a listing whose [job_id] can be read and
    is hashable (lines 126-127, before the inner [try]) and is not in the
    dedupe set: when the guarded block raises, whatever the exception, the
    handler logs it and the loop goes on with the next listing of the page,
    the records collected so far untouched; and the run as a whole always
    ends normally. *)
Theorem C1_job_failure_contained (s : gset pykey) (job job_id : json) (k : pykey)
    (acc : list JobRecord * list json) (rest : list json) (w w' : world) (e : exn) :
  listing_id job = Some job_id -> key_of job_id = Some k -> k ∉ s ->
  guarded_job env job_id acc w = (w', Raise e) ->
  let w'' := logged w' [EvLog ERROR (job_error job_id e)] in
  process_job env s job acc w = (w'', Ok acc) /\
  for_jobs env s (job :: rest) acc w = for_jobs env s rest acc w'' /\
  (forall w0, exists w1, main env w0 = (w1, Ok tt)).
Proof.
  intros Hid Hk Hs Hraise w''.
  assert (E : process_job env s job acc w = (w'', Ok acc)).
  { rewrite (process_job_new env s job job_id k) by assumption.
    erewrite try_raise by exact Hraise. apply job_handler_run. }
  split; [exact E |]. split; [now apply for_jobs_cons |].
  intros w0. destruct (main_returns env w0) as [w1 [H1 _]]. eauto.
Qed.

(** C4, as the code has it. A field among position, company, seniority and
    location that the detail mapping lacks is "N/A" in the assembled
    record; a missing description is read as the empty string, is used for
    the prompt only, and is not part of the record. *)
Theorem C4_absent_fields_default (d : list (string * json)) :
  (forall f, f <> Description -> lookup_item (field_key f) d = None ->
             field_value f d = not_available) /\
  (lookup_item (field_key Description) d = None ->
   field_value Description d = JStr EmptyString) /\
  (forall job_id new_jobs new_job_ids w w' skills,
     extract_skills env (field_value Description d) w = (w', Ok skills) ->
     process_details env job_id (JDict d) (new_jobs, new_job_ids) w =
       (w', Ok (new_jobs ++ [ {| job_position := field_value Position d;
                                 company_name := field_value Company d;
                                 seniority_level := field_value Seniority d;
                                 job_location := field_value Location d;
                                 skills := skills |} ],
                new_job_ids ++ [job_id]))).
Proof.
  split; [| split].
  - intros f Hf H. destruct f; try contradiction;
      simpl in *; unfold dict_get; now rewrite H.
  - intros H. simpl in *. unfold job_description_of, dict_get. now rewrite H.
  - intros job_id new_jobs new_job_ids w w' skills H.
    now apply process_details_dict.
Qed.

(** C5. A one-element list that wraps a mapping is handled exactly as the
    mapping itself; a response that is still not a mapping after the
    unwrapping is logged, the job is skipped, the loop goes on and the run
    ends normally. *)
Theorem C5_detail_shapes (s : gset pykey) (job job_id : json) (k : pykey)
    (acc : list JobRecord * list json) (rest : list json) (w : world) (v : json) :
  listing_id job = Some job_id -> key_of job_id = Some k -> k ∉ s ->
  requests_get_json env (trace w ++ [EvLog INFO (FetchingDetails job_id)])
    LINKEDIN_BASE_URL (details_params env job_id) = Returned v ->
  let w1 := logged w [ EvLog INFO (FetchingDetails job_id);
                       EvGet LINKEDIN_BASE_URL (details_params env job_id) ] in
  (forall d u, process_details env job_id (JList [JDict d]) acc u
               = process_details env job_id (JDict d) acc u) /\
  (forall d, v = JList [JDict d] \/ v = JDict d ->
     process_job env s job acc w =
       try_except (process_details env job_id (JDict d) acc)
                  (job_handler job_id acc) w1) /\
  (is_dict (normalize v) = false ->
     let w2 := logged w1 [EvLog ERROR (UnexpectedFormat (normalize v))] in
     process_job env s job acc w = (w2, Ok acc) /\
     for_jobs env s (job :: rest) acc w = for_jobs env s rest acc w2 /\
     (forall w0, exists w', main env w0 = (w', Ok tt))).
Proof.
  intros Hid Hk Hs Hv w1.
  assert (Hg : guarded_job env job_id acc w = process_details env job_id v acc w1)
    by now apply guarded_job_fetched.
  split; [reflexivity |]. split.
  - intros d Hd.
    rewrite (process_job_new env s job job_id k) by assumption.
    unfold try_except. rewrite Hg. now destruct Hd as [-> | ->].
  - intros Hnd w2.
    assert (E : process_job env s job acc w = (w2, Ok acc)).
    { rewrite (process_job_new env s job job_id k) by assumption.
      apply try_ok. rewrite Hg. now apply process_details_not_dict. }
    split; [exact E |]. split; [now apply for_jobs_cons |].
    intros w0. destruct (main_returns env w0) as [w' [H' _]]. eauto.
Qed.

Lemma audit_at (s : gset pykey) (t1 t2 : list event) (ev : event) :
  audit s (t1 ++ ev :: t2) -> fresh_fetch (replay s t1) ev.
Proof. intros H. apply audit_app in H as [_ [H _]]. exact H. Qed.

(** C6. A listing whose id is in the in-memory dedupe set is passed over
    without any request; during a page no detail request goes out for an id
    of the set; and over a whole run every detail request is for an id that
    is, at that moment, neither among the ids loaded at the start nor among
    those recorded since ([replay] is the set the loop over the locations
    holds: it is the one it hands back). *)
Theorem C6_known_ids_never_fetched :
  (forall s job job_id k acc w,
     listing_id job = Some job_id -> key_of job_id = Some k -> k ∈ s ->
     process_job env s job acc w = (w, Ok acc)) /\
  (forall s jobs acc w, exists t,
     trace (for_jobs env s jobs acc w).1 = trace w ++ t /\
     forall job_id k,
       In (EvGet LINKEDIN_BASE_URL (details_params env job_id)) t ->
       key_of job_id = Some k -> k ∉ s) /\
  (forall w s0,
     load_queried_ids QUERIED_IDS_FILE w = (w, Ok s0) ->
     exists t,
       trace (main env w).1 = trace w ++ t /\
       forall t1 t2 job_id k,
         t = t1 ++ EvGet LINKEDIN_BASE_URL (details_params env job_id) :: t2 ->
         key_of job_id = Some k -> k ∉ replay s0 t1) /\
  (forall location_ids s w, exists t,
     trace (for_locations env location_ids s w).1 = trace w ++ t /\
     (for_locations env location_ids s w).2 = Ok (replay s t)).
Proof.
  split; [| split; [| split]].
  - intros s job job_id k acc w. apply process_job_seen.
  - intros s jobs acc w.
    destruct (calm_for_jobs env s jobs acc w) as [t [Ht [_ [_ Hq]]]].
    exists t. split; [exact Ht |].
    intros job_id k Hin Hk.
    rewrite Forall_forall in Hq. apply list_elem_of_In in Hin.
    destruct (Hq _ Hin) as [_ Hf].
    now apply (Hf _ _ job_id k eq_refl).
  - intros w s0 Hs0.
    destruct (main_audit env w s0 Hs0) as [t [Ht Ha]].
    exists t. split; [exact Ht |].
    intros t1 t2 job_id k -> Hk.
    apply audit_at in Ha. now apply (Ha _ _ job_id k eq_refl).
  - intros location_ids s w.
    destruct (does_for_locations env location_ids s w) as [t [Ht [_ [_ Hr]]]].
    exists t. now split.
Qed.

Lemma page_body_fetch_raised (location_id : string) (page total_job_ids : Z)
    (s : gset pykey) (w : world) (e : exn) :
  requests_get_json env (trace w ++ [EvLog INFO (FetchingPage page)])
    LINKEDIN_BASE_URL (listings_params env field location_id page) = Raised e ->
  page_body env location_id page total_job_ids s w =
    (logged w [ EvLog INFO (FetchingPage page);
                EvGet LINKEDIN_BASE_URL (listings_params env field location_id page) ],
     Raise e).
Proof.
  intros H. unfold page_body, fetch_job_listings.
  erewrite bind_ok by apply log_run.
  erewrite bind_raise by (apply http_get_raised; exact H).
  now rewrite logged_logged.
Qed.

Lemma page_handler_run (e : exn) (w : world) :
  page_handler e w = (logged w [EvLog ERROR (page_error e)], Ok Break).
Proof. unfold page_handler, page_error. now destruct (is_request_exception e). Qed.

(** C7. When the listings request of a page raises, the pagination of
    that location stops there: the error is logged, no file is touched, the
    loop hands back the set unchanged and no further page is asked for.
    Every location returns, so the driver goes on with the next one; the
    run ends normally and the text the files held is still in them. *)
Theorem C7_page_failure_contained (fuel : nat) (location_id : string)
    (page total_job_ids : Z) (s : gset pykey) (w : world) (e : exn) :
  page <= 100 -> total_job_ids < max_job_ids ->
  requests_get_json env (trace w ++ [EvLog INFO (FetchingPage page)])
    LINKEDIN_BASE_URL (listings_params env field location_id page) = Raised e ->
  while_pages env (S fuel) location_id page total_job_ids s w =
    (logged w [ EvLog INFO (FetchingPage page);
                EvGet LINKEDIN_BASE_URL (listings_params env field location_id page);
                EvLog ERROR (page_error e) ],
     Ok s) /\
  (forall location rest s0 w0, exists w1 s1,
     process_location env location s0 w0 = (w1, Ok s1) /\
     files_grow w0 w1 /\
     for_locations env (location :: rest) s0 w0 = for_locations env rest s1 w1) /\
  (forall w0, exists w1, main env w0 = (w1, Ok tt) /\ files_grow w0 w1).
Proof.
  intros Hpage Htotal Hraise. split; [| split].
  - simpl.
    replace (page <=? 100) with true by (symmetry; now apply Z.leb_le).
    replace (total_job_ids <? max_job_ids) with true
      by (symmetry; now apply Z.ltb_lt).
    simpl.
    erewrite bind_ok.
    2:{ erewrite try_raise by (apply page_body_fetch_raised; exact Hraise).
        apply page_handler_run. }
    now rewrite logged_logged.
  - intros location rest s0 w0.
    destruct (process_location_returns env location s0 w0) as [w1 [s1 [H1 Hg]]].
    exists w1, s1. split; [exact H1 |]. split; [exact Hg |].
    simpl. now erewrite bind_ok by exact H1.
  - apply main_returns.
Qed.

Lemma for_locations_app (l1 l2 : list string) (s s1 : gset pykey) (w w1 : world) :
  for_locations env l1 s w = (w1, Ok s1) ->
  for_locations env (l1 ++ l2) s w = for_locations env l2 s1 w1.
Proof.
  revert s w. induction l1 as [|location l1 IH]; intros s w H; simpl in *.
  - now injection H as <- <-.
  - destruct (process_location_returns env location s w) as [w' [s' [H' _]]].
    erewrite bind_ok in H by exact H'.
    erewrite bind_ok by exact H'.
    now apply IH.
Qed.

Lemma while_pages_capped (fuel : nat) (location_id : string) (page total_job_ids : Z)
    (s : gset pykey) (w : world) :
  max_job_ids <= total_job_ids ->
  while_pages env fuel location_id page total_job_ids s w = (w, Ok s).
Proof.
  intros H.
  assert (E : (total_job_ids <? max_job_ids) = false) by now apply Z.ltb_ge.
  destruct fuel; simpl; rewrite E, andb_false_r; reflexivity.
Qed.

Lemma for_locations_capped (location_ids : list string) (s : gset pykey) (w : world) :
  max_job_ids <= Z.of_nat (size s) ->
  for_locations env location_ids s w =
    (logged w (map (fun location_id => EvLog INFO (ProcessingLocation location_id))
                   location_ids),
     Ok s).
Proof.
  intros H. revert w. induction location_ids as [|location rest IH]; intros w; simpl.
  - now rewrite logged_nil.
  - erewrite bind_ok.
    2:{ unfold process_location. erewrite bind_ok by apply log_run.
        now apply while_pages_capped. }
    rewrite IH. now rewrite logged_logged.
Qed.

(** C8. Once the dedupe set holds [max_job_ids] ids or more, the loop over
    the pages of a location stops before any request, and every later
    location only logs its name: no listings page is asked for, no file is
    written, the set stays as it is. *)
Theorem C8_global_cap (l1 l2 : list string) (s s1 : gset pykey) (w w1 : world) :
  for_locations env l1 s w = (w1, Ok s1) ->
  max_job_ids <= Z.of_nat (size s1) ->
  for_locations env (l1 ++ l2) s w =
    (logged w1 (map (fun location_id => EvLog INFO (ProcessingLocation location_id)) l2),
     Ok s1) /\
  (forall fuel location_id page total_job_ids u,
     max_job_ids <= total_job_ids ->
     while_pages env fuel location_id page total_job_ids s1 u = (u, Ok s1)).
Proof.
  intros H1 Hcap. split.
  - rewrite (for_locations_app l1 l2 s s1 w w1 H1). now apply for_locations_capped.
  - intros fuel location_id page total u Ht. now apply while_pages_capped.
Qed.

Lemma page_body_listed (location_id : string) (page total_job_ids : Z)
    (s : gset pykey) (w w2 : world) (v : json) (jobs : list json)
    (new_jobs : list JobRecord) (new_job_ids : list json) :
  let w1 := logged w [ EvLog INFO (FetchingPage page);
                       EvGet LINKEDIN_BASE_URL
                         (listings_params env field location_id page) ] in
  requests_get_json env (trace w ++ [EvLog INFO (FetchingPage page)])
    LINKEDIN_BASE_URL (listings_params env field location_id page) = Returned v ->
  truthy v = true ->
  iter v w1 = (w1, Ok jobs) ->
  for_jobs env s jobs ([], []) w1 = (w2, Ok (new_jobs, new_job_ids)) ->
  page_body env location_id page total_job_ids s w =
    ('(total, queried_ids) ← save_page env new_jobs new_job_ids total_job_ids s;
     mret (NextPage (page + 1) total queried_ids)) w2.
Proof.
  intros w1 Hv Ht Hi Hj. subst w1. unfold page_body, fetch_job_listings.
  erewrite bind_ok by apply log_run.
  erewrite bind_ok by (apply http_get_returned; exact Hv).
  rewrite Ht. change (negb true) with false. cbv iota.
  rewrite logged_logged. simpl app.
  rewrite (bind_ok _ _ _ _ _ Hi).
  rewrite (bind_ok _ _ _ _ _ Hj).
  reflexivity.
Qed.

(** C9. After the listings of a page: with at least one new record, the
    rows go to the sink file (after the header row when the file is new),
    then the ids to the dedupe file, then the set and the running total are
    updated; with none, nothing is written and set and total stay as they
    are. The page body ends with exactly this step. *)
Theorem C9_page_flush (new_jobs : list JobRecord) (new_job_ids : list json)
    (total_job_ids : Z) (s : gset pykey) (w : world) :
  (new_jobs <> [] ->
   let total := total_job_ids + Z.of_nat (length new_job_ids) in
   save_page env new_jobs new_job_ids total_job_ids s w =
     (World
        (<[QUERIED_IDS_FILE :=
             default EmptyString (files w !! QUERIED_IDS_FILE)
             +:+ rows_text (csv_row env) (map id_row new_job_ids)]>
           (<[OUTPUT_FILE :=
                sink_start (csv_row env) (files w !! OUTPUT_FILE)
                +:+ rows_text (csv_row env) (map sink_row new_jobs)]> (files w)))
        (trace w
           ++ (header_events OUTPUT_FILE (files w !! OUTPUT_FILE)
               ++ map (fun j => EvWriterow OUTPUT_FILE (sink_row j)) new_jobs)
           ++ map (fun job_id => EvWriterow QUERIED_IDS_FILE (id_row job_id))
                  new_job_ids
           ++ [EvLog INFO (ProcessedNewJobs (Z.of_nat (length new_job_ids)) total)]),
      Ok (total, set_update s new_job_ids))) /\
  (new_jobs = [] ->
   save_page env new_jobs new_job_ids total_job_ids s w = (w, Ok (total_job_ids, s))) /\
  (forall location_id page w0 v jobs,
     let w1 := logged w0 [ EvLog INFO (FetchingPage page);
                           EvGet LINKEDIN_BASE_URL
                             (listings_params env field location_id page) ] in
     requests_get_json env (trace w0 ++ [EvLog INFO (FetchingPage page)])
       LINKEDIN_BASE_URL (listings_params env field location_id page) = Returned v ->
     truthy v = true ->
     iter v w1 = (w1, Ok jobs) ->
     for_jobs env s jobs ([], []) w1 = (w, Ok (new_jobs, new_job_ids)) ->
     page_body env location_id page total_job_ids s w0 =
       ('(total, queried_ids) ← save_page env new_jobs new_job_ids total_job_ids s;
        mret (NextPage (page + 1) total queried_ids)) w).
Proof.
  split; [| split].
  - intros Hne total. destruct new_jobs as [|job more]; [contradiction |].
    apply save_page_run.
  - intros ->. reflexivity.
  - intros location_id page w0 v jobs w1 Hv Ht Hi Hj.
    now apply page_body_listed with v jobs.
Qed.

End Driver.

(** C1, as stated for every listing and any exception, fails on a listing
    without [job_id]: the [KeyError] of line 126 is raised outside the
    inner [try], so the turn of the loop raises instead of skipping the
    job, the listing after it on the page is not processed, and on a page
    that lists job 1 before such an entry the handler of the page stops
    the location with the record of job 1 unsaved. *)
Lemma C1_listing_without_id_not_contained :
  let broken := Py.JDict [("job_title", Py.JStr "Analyst")] in
  let w1 := Props.logged Sample.fresh
              [ Py.EvLog Py.INFO (Py.FetchingPage 1);
                Py.EvGet ExtractSkills.LINKEDIN_BASE_URL
                  (ExtractSkills.listings_params Sample2.env_broken
                     ExtractSkills.field "101318387" 1) ] in
  let w2 := (ExtractSkills.for_jobs Sample2.env_broken ∅ [Sample.job "1"; broken]
               ([], []) w1).1 in
  ExtractSkills.process_job Sample.env ∅ broken ([], []) Sample.fresh
    = (Sample.fresh, Py.Raise (Py.KeyError "job_id")) /\
  ExtractSkills.for_jobs Sample.env ∅ [broken; Sample.job "1"] ([], []) Sample.fresh
    = (Sample.fresh, Py.Raise (Py.KeyError "job_id")) /\
  ExtractSkills.while_pages Sample2.env_broken 100 "101318387" 1 0 ∅ Sample.fresh
    = (Props.logged w2
         [Py.EvLog Py.ERROR (Py.UnexpectedError (Py.KeyError "job_id"))],
       Py.Ok ∅) /\
  Py.files w2 = Py.files Sample.fresh /\
  ~ (forall job, exists w' acc',
       ExtractSkills.process_job Sample.env ∅ job ([], []) Sample.fresh
       = (w', Py.Ok acc')).
Proof.
  intros broken w1 w2.
  split; [reflexivity |]. split; [reflexivity |].
  split; [reflexivity |]. split; [reflexivity |].
  intros H. destruct (H broken) as [w' [acc' E]]. discriminate E.
Qed.

(** C4, as stated, fails on a detail mapping without description: the
    driver reads the empty string, not "N/A". *)
Lemma C4_description_not_sentinel :
  Py.lookup_item (Props.field_key Props.Description)
    [("job_position", Py.JStr "Data Scientist")] = None /\
  Props.field_value Props.Description [("job_position", Py.JStr "Data Scientist")]
    = Py.JStr EmptyString /\
  Props.field_value Props.Description [("job_position", Py.JStr "Data Scientist")]
    <> Props.not_available.
Proof. split; [reflexivity | split; [reflexivity | discriminate]]. Qed.

(* ===================================================================== *)
(** ** The theorems at work on the sample environment *)
(* ===================================================================== *)

Lemma C1_job_failure_contained_witness :
  ExtractSkills.process_job Sample.env ∅ (Sample.job "2") ([], []) Sample.fresh =
    (Props.logged
       (Props.logged Sample.fresh
          [ Py.EvLog Py.INFO (Py.FetchingDetails (Py.JStr "2"));
            Py.EvGet ExtractSkills.LINKEDIN_BASE_URL
              (ExtractSkills.details_params Sample.env (Py.JStr "2")) ])
       [ Py.EvLog Py.ERROR
           (Py.JobRequestFailed (Py.JStr "2")
              (Py.RequestException "503 Server Error")) ],
     Py.Ok ([], [])).
Proof.
  apply (C1_job_failure_contained Sample.env ∅ (Sample.job "2") (Py.JStr "2")
           (Py.KStr "2") ([], []) [] Sample.fresh _
           (Py.RequestException "503 Server Error")).
  - reflexivity.
  - reflexivity.
  - apply not_elem_of_empty.
  - reflexivity.
Defined.

Lemma C4_absent_fields_default_witness :
  Props.field_value Props.Company Sample.analyst = Props.not_available /\
  Props.field_value Props.Description [("job_position", Py.JStr "Data Scientist")]
    = Py.JStr EmptyString.
Proof.
  split.
  - apply (proj1 (C4_absent_fields_default Sample.env Sample.analyst));
      [discriminate | reflexivity].
  - apply (proj1 (proj2 (C4_absent_fields_default Sample.env
                           [("job_position", Py.JStr "Data Scientist")]))).
    reflexivity.
Defined.

Lemma C5_detail_shapes_witness :
  ExtractSkills.process_job Sample.env ∅ (Sample.job "3") ([], []) Sample.fresh =
    (Props.logged
       (Props.logged Sample.fresh
          [ Py.EvLog Py.INFO (Py.FetchingDetails (Py.JStr "3"));
            Py.EvGet ExtractSkills.LINKEDIN_BASE_URL
              (ExtractSkills.details_params Sample.env (Py.JStr "3")) ])
       [ Py.EvLog Py.ERROR (Py.UnexpectedFormat (Py.JStr "not found")) ],
     Py.Ok ([], [])).
Proof.
  apply (C5_detail_shapes Sample.env ∅ (Sample.job "3") (Py.JStr "3") (Py.KStr "3")
           ([], []) [] Sample.fresh (Py.JStr "not found")).
  - reflexivity.
  - reflexivity.
  - apply not_elem_of_empty.
  - reflexivity.
  - reflexivity.
Defined.

Lemma C6_known_ids_never_fetched_witness :
  ExtractSkills.process_job Sample.env {[ Py.KStr "1" ]} (Sample.job "1") ([], [])
    Sample.fresh = (Sample.fresh, Py.Ok ([], [])).
Proof.
  apply (proj1 (C6_known_ids_never_fetched Sample.env)
           {[ Py.KStr "1" ]} (Sample.job "1") (Py.JStr "1") (Py.KStr "1")).
  - reflexivity.
  - reflexivity.
  - apply elem_of_singleton_2. reflexivity.
Defined.

Lemma C7_page_failure_contained_witness :
  ExtractSkills.while_pages Sample.env 98 "101318387" 3 2 ∅ Sample.fresh =
    (Props.logged Sample.fresh
       [ Py.EvLog Py.INFO (Py.FetchingPage 3);
         Py.EvGet ExtractSkills.LINKEDIN_BASE_URL
           (ExtractSkills.listings_params Sample.env ExtractSkills.field "101318387" 3);
         Py.EvLog Py.ERROR
           (Py.RequestFailed (Py.RequestException "Connection timed out")) ],
     Py.Ok ∅).
Proof.
  apply (C7_page_failure_contained Sample.env 97 "101318387" 3 2 ∅ Sample.fresh
           (Py.RequestException "Connection timed out")).
  - discriminate.
  - reflexivity.
  - reflexivity.
Defined.

Lemma size_ids_upto (n : nat) : size (Sample.ids_upto n) = n.
Proof.
  unfold Sample.ids_upto. rewrite size_list_to_set.
  - now rewrite length_map, length_seq.
  - change (NoDup ((fun i => Py.KInt (Z.of_nat i)) <$> seq 0 n)).
    apply NoDup_fmap_2; [| apply NoDup_seq].
    intros a b [= H]. now apply Nat2Z.inj.
Qed.

Lemma C8_global_cap_witness :
  ExtractSkills.for_locations Sample.env ([] ++ ["101318387"; "106315325"])
    Sample.full Sample.fresh =
    (Props.logged Sample.fresh
       [ Py.EvLog Py.INFO (Py.ProcessingLocation "101318387");
         Py.EvLog Py.INFO (Py.ProcessingLocation "106315325") ],
     Py.Ok Sample.full).
Proof.
  refine (proj1 (C8_global_cap Sample.env [] ["101318387"; "106315325"]
                   Sample.full Sample.full Sample.fresh Sample.fresh _ _)).
  - reflexivity.
  - unfold Sample.full. rewrite size_ids_upto.
    rewrite Z2Nat.id by discriminate. discriminate.
Defined.

Lemma C9_page_flush_witness :
  ExtractSkills.save_page Sample.env [] [] 0 ∅ Sample.fresh
    = (Sample.fresh, Py.Ok (0, ∅)) /\
  snd (ExtractSkills.save_page Sample.env [Sample.record1] [Py.JStr "1"] 0 ∅
         Sample.fresh)
    = Py.Ok (1, Py.set_update ∅ [Py.JStr "1"]).
Proof.
  split.
  - apply (proj1 (proj2 (C9_page_flush Sample.env [] [] 0 ∅ Sample.fresh))).
    reflexivity.
  - rewrite (proj1 (C9_page_flush Sample.env [Sample.record1] [Py.JStr "1"] 0 ∅
                      Sample.fresh)) by discriminate.
    reflexivity.
Defined.

(* ===================================================================== *)
(** ** More on the retry wrapper *)
(* ===================================================================== *)

Section RetryMore.
Import Py Utils Props Obs.
Context (env : Env).

Lemma chat_completion_returned (prompt : string) (w : world) (content : string) :
  chat_create env (trace w) (MODEL (config env))
    [("system", "You are a helpful assistant."); ("user", prompt)] = Returned content ->
  chat_completion env prompt w =
    (logged w [attempt env prompt], Ok (PyStr.strip content)).
Proof. intros H. unfold chat_completion. now rewrite H. Qed.

(** [k] rate-limited turns in a row. *)
Lemma retry_loop_backoff (k fuel : nat) (prompt : string) (retries : Z) (delay : Q)
    (w : world) :
  retries + Z.of_nat k <= MAX_RETRIES (config env) ->
  (forall i, (i < k)%nat ->
     chat_create env (trace w ++ backoff env prompt i delay) (MODEL (config env))
       [("system", "You are a helpful assistant."); ("user", prompt)]
     = Raised RateLimitError) ->
  retry_loop env (k + fuel) prompt retries delay w =
    retry_loop env fuel prompt (retries + Z.of_nat k) (scaled env k delay)
      (logged w (backoff env prompt k delay)).
Proof.
  revert retries delay w.
  induction k as [|k IH]; intros retries delay w Hle Hlim.
  - simpl. now rewrite Z.add_0_r, logged_nil.
  - change (S k + fuel)%nat with (S (k + fuel)).
    rewrite retry_loop_limited.
    + rewrite IH.
      * rewrite logged_logged. simpl scaled.
        replace (retries + 1 + Z.of_nat k) with (retries + Z.of_nat (S k)) by lia.
        reflexivity.
      * lia.
      * intros i Hi. simpl trace. rewrite <- app_assoc.
        apply (Hlim (S i)). lia.
    + apply Z.ltb_lt. lia.
    + specialize (Hlim O ltac:(lia)). simpl in Hlim. now rewrite app_nil_r in Hlim.
Qed.

(** X1. Whatever [MAX_RETRIES] is, a provider that always signals rate
    limiting is asked exactly [MAX_RETRIES] times (not at all when the
    number is zero or negative), the i-th sleep lasting [INITIAL_DELAY *
    BACKOFF_FACTOR^i], and the call ends with the terminal error. *)
Theorem retry_exhaustion_any_limit (prompt : string) (w : world) :
  (forall h model messages, chat_create env h model messages = Raised RateLimitError) ->
  openai_request env prompt w =
    (logged w (backoff env prompt (Z.to_nat (MAX_RETRIES (config env)))
                 (INITIAL_DELAY (config env))
               ++ [EvLog ERROR MaxRetriesReached]),
     Raise (Exception "Max retries reached for OpenAI request.")).
Proof.
  intros Hlim. unfold openai_request.
  rewrite <- (Nat.add_0_r (Z.to_nat (MAX_RETRIES (config env)))) at 1.
  destruct (Z_le_gt_dec 0 (MAX_RETRIES (config env))) as [Hpos | Hneg].
  - rewrite retry_loop_backoff by (rewrite ?Z2Nat.id by lia; first [lia | intros; apply Hlim]).
    rewrite retry_loop_exhausted by (apply Z.ltb_ge; rewrite Z2Nat.id by lia; lia).
    now rewrite logged_logged.
  - replace (Z.to_nat (MAX_RETRIES (config env))) with O by lia.
    rewrite retry_loop_exhausted by (apply Z.ltb_ge; lia).
    reflexivity.
Qed.

(** X2. After [k] rate-limited attempts, with retries left, an answer
    ends the call: the stripped text is returned, after [k] sleeps and
    [k + 1] attempts, without an error log. *)
Theorem retry_then_success (k : nat) (prompt : string) (w : world) (content : string) :
  Z.of_nat k < MAX_RETRIES (config env) ->
  (forall i, (i < k)%nat ->
     chat_create env (trace w ++ backoff env prompt i (INITIAL_DELAY (config env)))
       (MODEL (config env))
       [("system", "You are a helpful assistant."); ("user", prompt)]
     = Raised RateLimitError) ->
  chat_create env (trace w ++ backoff env prompt k (INITIAL_DELAY (config env)))
    (MODEL (config env))
    [("system", "You are a helpful assistant."); ("user", prompt)]
  = Returned content ->
  openai_request env prompt w =
    (logged w (backoff env prompt k (INITIAL_DELAY (config env))
               ++ [attempt env prompt]),
     Ok (PyStr.strip content)).
Proof.
  intros Hk Hlim Hok. unfold openai_request.
  replace (Z.to_nat (MAX_RETRIES (config env)))
    with (k + S (Z.to_nat (MAX_RETRIES (config env)) - S k))%nat by lia.
  rewrite retry_loop_backoff by (first [lia | exact Hlim]).
  simpl retry_loop.
  replace (0 + Z.of_nat k <? MAX_RETRIES (config env)) with true
    by (symmetry; apply Z.ltb_lt; lia).
  erewrite try_ok by (apply chat_completion_returned; exact Hok).
  now rewrite logged_logged.
Qed.

(** X3. An exception of the provider that is not a rate-limit signal is
    not retried: it leaves [openai_request] at once, without sleep and
    without log line, also after earlier rate-limited attempts. *)
Theorem retry_other_error_propagates (k : nat) (prompt : string) (w : world) (e : exn) :
  Z.of_nat k < MAX_RETRIES (config env) ->
  (forall i, (i < k)%nat ->
     chat_create env (trace w ++ backoff env prompt i (INITIAL_DELAY (config env)))
       (MODEL (config env))
       [("system", "You are a helpful assistant."); ("user", prompt)]
     = Raised RateLimitError) ->
  chat_create env (trace w ++ backoff env prompt k (INITIAL_DELAY (config env)))
    (MODEL (config env))
    [("system", "You are a helpful assistant."); ("user", prompt)]
  = Raised e ->
  is_rate_limit_error e = false ->
  openai_request env prompt w =
    (logged w (backoff env prompt k (INITIAL_DELAY (config env))
               ++ [attempt env prompt]),
     Raise e).
Proof.
  intros Hk Hlim He Hno. unfold openai_request.
  replace (Z.to_nat (MAX_RETRIES (config env)))
    with (k + S (Z.to_nat (MAX_RETRIES (config env)) - S k))%nat by lia.
  rewrite retry_loop_backoff by (first [lia | exact Hlim]).
  simpl retry_loop.
  replace (0 + Z.of_nat k <? MAX_RETRIES (config env)) with true
    by (symmetry; apply Z.ltb_lt; lia).
  erewrite try_raise by (apply chat_completion_raised; exact He).
  rewrite Hno. unfold raise. now rewrite logged_logged.
Qed.

Lemma count_app (p : event -> bool) (t1 t2 : list event) :
  count p (t1 ++ t2) = (count p t1 + count p t2)%nat.
Proof. unfold count. now rewrite List.filter_app, length_app. Qed.

Lemma count_one (p : event -> bool) (ev : event) :
  count p [ev] = if p ev then 1%nat else 0%nat.
Proof. unfold count. simpl. now destruct (p ev). Qed.

Lemma does_chat_completion (prompt : string) :
  does (chat_completion env prompt)
       (fun t r => t = [attempt env prompt] /\ r <> Diverge /\
                   forall a, r = Ok a -> PyStr.trimmed a).
Proof.
  intros w. unfold chat_completion. exists [attempt env prompt].
  destruct (chat_create env (trace w) _ _); simpl;
    (split; [reflexivity |]; split; [now apply files_grow_same |]);
    (split; [reflexivity |]; split; [discriminate |]).
  - intros x [= <-]. apply strip_trimmed.
  - intros x [=].
Qed.

Lemma does_retry_loop (fuel : nat) (prompt : string) (retries : Z) (delay : Q) :
  (Z.to_nat (MAX_RETRIES (config env) - retries) <= fuel)%nat ->
  does (retry_loop env fuel prompt retries delay)
       (fun t r =>
          (count is_chat t <= Z.to_nat (MAX_RETRIES (config env) - retries))%nat /\
          (count is_sleep t <= count is_chat t)%nat /\
          r <> Diverge /\
          forall a, r = Ok a -> PyStr.trimmed a).
Proof.
  revert retries delay.
  induction fuel as [|fuel IH]; intros retries delay Hfuel; simpl.
  - destruct (retries <? MAX_RETRIES (config env)) eqn:E; [apply Z.ltb_lt in E; lia |].
    eapply does_bind; [apply does_log_exact | | |].
    + intros t [] [-> _]. apply does_raise. unfold count. simpl.
      repeat split; try lia; try discriminate; intros ? [=].
    + intros t e [_ [=]].
    + intros t [_ [=]].
  - destruct (retries <? MAX_RETRIES (config env)) eqn:E.
    + apply Z.ltb_lt in E.
      eapply does_try; [apply does_chat_completion | | |].
      * intros t e [-> _].
        destruct (is_rate_limit_error e).
        -- eapply does_bind; [apply does_log_exact | | |].
           ++ intros t1 [] [-> _].
              eapply does_bind; [apply does_emit
                                 with (R := fun t r => t = [EvSleep delay] /\ r = Ok tt);
                                 now split | | |].
              ** intros t2 [] [-> _].
                 eapply does_weaken; [apply (IH (retries + 1)); lia |].
                 intros t3 r [Hc [Hs [Hd Ht]]].
                 rewrite !count_app, !count_one. simpl.
                 split; [lia | split; [lia | split; [exact Hd | exact Ht]]].
              ** intros t2 e' [_ [=]].
              ** intros t2 [_ [=]].
           ++ intros t1 e' [_ [=]].
           ++ intros t1 [_ [=]].
        -- apply does_raise. rewrite app_nil_r. unfold count. simpl.
           repeat split; try lia; try discriminate; intros ? [=].
      * intros t a [-> [_ Ht]]. rewrite !count_one. simpl.
        split; [lia | split; [lia | split; [discriminate | exact Ht]]].
      * intros t [_ [Hd _]]. contradiction.
    + eapply does_bind; [apply does_log_exact | | |].
      * intros t [] [-> _]. apply does_raise. unfold count. simpl.
        repeat split; try lia; try discriminate; intros ? [=].
      * intros t e [_ [=]].
      * intros t [_ [=]].
Qed.

End RetryMore.

(* ===================================================================== *)
(** ** Which files a computation touches *)
(* ===================================================================== *)

Section Frames.
Import Py Props Obs.

Lemma frame_ret {A} (F : string -> Prop) (a : A) : touches_only F (mret a).
Proof. intros w path _. reflexivity. Qed.

Lemma frame_raise {A} (F : string -> Prop) (e : exn) : touches_only F (raise e : M A).
Proof. intros w path _. reflexivity. Qed.

Lemma frame_emit (F : string -> Prop) (ev : event) : touches_only F (emit ev).
Proof. intros w path _. reflexivity. Qed.

Lemma frame_bind {A B} (F : string -> Prop) (m : M A) (f : A -> M B) :
  touches_only F m -> (forall a, touches_only F (f a)) -> touches_only F (m ≫= f).
Proof.
  intros Hm Hf w path Hp. specialize (Hm w path Hp).
  unfold mbind, M_bind. destruct (m w) as [w1 [a | e |]]; simpl in *; try exact Hm.
  now rewrite (Hf a w1 path Hp).
Qed.

Lemma frame_try {A} (F : string -> Prop) (m : M A) (h : exn -> M A) :
  touches_only F m -> (forall e, touches_only F (h e)) -> touches_only F (try_except m h).
Proof.
  intros Hm Hh w path Hp. specialize (Hm w path Hp).
  unfold try_except. destruct (m w) as [w1 [a | e |]]; simpl in *; try exact Hm.
  now rewrite (Hh e w1 path Hp).
Qed.

Lemma frame_weaken {A} (F G : string -> Prop) (m : M A) :
  (forall path, F path -> G path) -> touches_only F m -> touches_only G m.
Proof. intros HFG Hm w path Hp. apply Hm. auto. Qed.

Lemma frame_getitem (F : string -> Prop) (v : json) (key : string) :
  touches_only F (getitem v key).
Proof.
  destruct v; simpl; try apply frame_raise.
  destruct (lookup_item key d); [apply frame_ret | apply frame_raise].
Qed.

Lemma frame_iter (F : string -> Prop) (v : json) : touches_only F (iter v).
Proof. destruct v; simpl; first [apply frame_ret | apply frame_raise]. Qed.

Lemma frame_in_set (F : string -> Prop) (v : json) (s : gset pykey) :
  touches_only F (in_set v s).
Proof. unfold in_set. destruct (key_of v); [apply frame_ret | apply frame_raise]. Qed.

Lemma frame_path_exists (F : string -> Prop) (path : string) :
  touches_only F (path_exists path).
Proof. intros w p _. reflexivity. Qed.

Lemma frame_open_w (F : string -> Prop) (path : string) :
  F path -> touches_only F (open_w path).
Proof.
  intros HF w p Hp. simpl. apply lookup_insert_ne. intros ->. contradiction.
Qed.

Lemma frame_open_a (F : string -> Prop) (path : string) :
  F path -> touches_only F (open_a path).
Proof.
  intros HF w p Hp. simpl. apply lookup_insert_ne. intros ->. contradiction.
Qed.

Lemma frame_append_text (F : string -> Prop) (path text : string) :
  F path -> touches_only F (append_text path text).
Proof.
  intros HF w p Hp. simpl. apply lookup_insert_ne. intros ->. contradiction.
Qed.

(** Nothing touched: the files are the same map. *)
Lemma frame_none {A} (m : M A) (w : world) :
  touches_only no_file m -> files (m w).1 = files w.
Proof. intros H. apply map_eq. intros path. apply H. intros []. Qed.

End Frames.

Ltac frame_step :=
  lazymatch goal with
  | |- Obs.touches_only _ (mret _) => apply frame_ret
  | |- Obs.touches_only _ (Py.raise _) => apply frame_raise
  | |- Obs.touches_only _ (Py.log _ _) => apply frame_emit
  | |- Obs.touches_only _ (Py.sleep _) => apply frame_emit
  | |- Obs.touches_only _ (Py.emit _) => apply frame_emit
  | |- Obs.touches_only _ (Py.getitem _ _) => apply frame_getitem
  | |- Obs.touches_only _ (Py.iter _) => apply frame_iter
  | |- Obs.touches_only _ (Py.in_set _ _) => apply frame_in_set
  | |- Obs.touches_only _ (Py.path_exists _) => apply frame_path_exists
  | |- Obs.touches_only _ (_ ≫= _) => apply frame_bind; [| intros ?]
  | |- Obs.touches_only _ (Py.try_except _ _) => apply frame_try; [| intros ?]
  end.

Section FrameChain.
Import Py Props Obs Utils ExtractSkills.
Context (env : Env).

Lemma frame_chat_completion (F : string -> Prop) (prompt : string) :
  touches_only F (chat_completion env prompt).
Proof.
  intros w path _. unfold chat_completion.
  now destruct (chat_create env (trace w) _ _).
Qed.

Lemma frame_retry_loop (F : string -> Prop) (fuel : nat) (prompt : string)
    (retries : Z) (delay : Q) :
  touches_only F (retry_loop env fuel prompt retries delay).
Proof.
  revert retries delay. induction fuel as [|fuel IH]; intros retries delay; simpl;
    destruct (retries <? MAX_RETRIES (config env)).
  - intros w path _. reflexivity.
  - repeat frame_step.
  - apply frame_try; [apply frame_chat_completion | intros e].
    destruct (is_rate_limit_error e); [| apply frame_raise].
    apply frame_bind; [apply frame_emit | intros _].
    apply frame_bind; [apply frame_emit | intros _]. apply IH.
  - repeat frame_step.
Qed.

Lemma frame_extract_skills (F : string -> Prop) (job_description : json) :
  touches_only F (extract_skills env job_description).
Proof.
  unfold extract_skills, openai_request.
  apply frame_bind; [apply frame_retry_loop | intros r; apply frame_ret].
Qed.

Lemma frame_http_get (F : string -> Prop) (url : string)
    (params : list (string * json)) :
  touches_only F (http_get env url params).
Proof.
  intros w path _. unfold http_get.
  now destruct (requests_get_json env (trace w) url params).
Qed.

Lemma frame_process_job (F : string -> Prop) (s : gset pykey) (job : json)
    (acc : list JobRecord * list json) :
  touches_only F (process_job env s job acc).
Proof.
  unfold process_job.
  apply frame_bind; [apply frame_getitem | intros job_id].
  apply frame_bind; [apply frame_in_set | intros seen].
  destruct seen; [apply frame_ret |].
  apply frame_try.
  - unfold guarded_job, fetch_job_details.
    apply frame_bind; [apply frame_emit | intros _].
    apply frame_bind; [apply frame_http_get | intros v].
    unfold process_details. destruct acc as [new_jobs new_job_ids].
    destruct (normalize v);
      try (apply frame_bind; [apply frame_emit | intros _; apply frame_ret]).
    apply frame_bind; [apply frame_extract_skills | intros skills; apply frame_ret].
  - intros e. unfold job_handler.
    destruct (is_request_exception e); repeat frame_step.
Qed.

Lemma frame_for_jobs (F : string -> Prop) (s : gset pykey) (jobs : list json)
    (acc : list JobRecord * list json) :
  touches_only F (for_jobs env s jobs acc).
Proof.
  revert acc. induction jobs as [|job rest IH]; intros acc; simpl.
  - apply frame_ret.
  - apply frame_bind; [apply frame_process_job | intros acc'; apply IH].
Qed.

Lemma frame_for_each_writerow {A} (F : string -> Prop) (f : A -> list json)
    (path : string) (l : list A) :
  F path -> touches_only F (for_each l (fun x => writerow env path (f x))).
Proof.
  intros HF. induction l as [|x l IH]; simpl; [apply frame_ret |].
  apply frame_bind; [| intros _; exact IH].
  unfold writerow. apply frame_bind; [apply frame_emit | intros _].
  now apply frame_append_text.
Qed.

Lemma frame_save_queried_ids (F : string -> Prop) (path : string)
    (job_ids : list json) :
  F path -> touches_only F (save_queried_ids env path job_ids).
Proof.
  intros HF. unfold save_queried_ids.
  apply frame_bind; [now apply frame_open_a | intros _].
  now apply frame_for_each_writerow.
Qed.

Lemma frame_save_job_data (F : string -> Prop) (path : string)
    (jobs : list JobRecord) :
  F path -> touches_only F (save_job_data env path jobs).
Proof.
  intros HF. unfold save_job_data.
  apply frame_bind; [apply frame_path_exists | intros present].
  apply frame_bind.
  - destruct (negb present); [| apply frame_ret].
    apply frame_bind; [now apply frame_open_w | intros _].
    unfold writerow. apply frame_bind; [apply frame_emit | intros _].
    now apply frame_append_text.
  - intros _. apply frame_bind; [now apply frame_open_a | intros _].
    now apply (frame_for_each_writerow F
                 (fun job => [ job_position job; company_name job; seniority_level job;
                               job_location job;
                               JStr (PyStr.join ", " (skills job)) ])).
Qed.

Lemma frame_save_page (new_jobs : list JobRecord) (new_job_ids : list json)
    (total_job_ids : Z) (s : gset pykey) :
  touches_only data_file (save_page env new_jobs new_job_ids total_job_ids s).
Proof.
  unfold save_page. destruct new_jobs; [apply frame_ret |].
  apply frame_bind; [apply frame_save_job_data; now left | intros _].
  apply frame_bind; [apply frame_save_queried_ids; now right | intros _].
  repeat frame_step.
Qed.

Lemma frame_page_body (location_id : string) (page total_job_ids : Z)
    (s : gset pykey) :
  touches_only data_file (page_body env location_id page total_job_ids s).
Proof.
  unfold page_body, fetch_job_listings.
  apply frame_bind; [apply frame_emit | intros _].
  apply frame_bind; [apply frame_http_get | intros v].
  destruct (negb (truthy v)); [repeat frame_step |].
  apply frame_bind; [apply frame_iter | intros jobs].
  apply frame_bind; [apply frame_for_jobs | intros [new_jobs new_job_ids]].
  apply frame_bind; [apply frame_save_page | intros [total s']].
  apply frame_ret.
Qed.

Lemma frame_while_pages (fuel : nat) (location_id : string) (page total_job_ids : Z)
    (s : gset pykey) :
  touches_only data_file (while_pages env fuel location_id page total_job_ids s).
Proof.
  revert page total_job_ids s.
  induction fuel as [|fuel IH]; intros page total s; simpl;
    destruct ((page <=? 100) && (total <? max_job_ids) && api_credits_remaining);
    try apply frame_ret.
  - intros w path _. reflexivity.
  - apply frame_bind.
    + apply frame_try; [apply frame_page_body | intros e].
      unfold page_handler. destruct (is_request_exception e); repeat frame_step.
    + intros [| page' total' s']; [apply frame_ret | apply IH].
Qed.

Lemma frame_for_locations (location_ids : list string) (s : gset pykey) :
  touches_only data_file (for_locations env location_ids s).
Proof.
  revert s. induction location_ids as [|location rest IH]; intros s; simpl.
  - apply frame_ret.
  - apply frame_bind; [| intros s'; apply IH].
    unfold process_location.
    apply frame_bind; [apply frame_emit | intros _; apply frame_while_pages].
Qed.

Lemma frame_main : touches_only data_file (main env).
Proof.
  unfold main. generalize LOCATION_IDS. intros location_ids.
  apply frame_bind; [apply frame_emit | intros _].
  apply frame_bind.
  - intros w path _. unfold load_queried_ids.
    now destruct (files w !! QUERIED_IDS_FILE).
  - intros s. apply frame_bind; [apply frame_for_locations | intros _].
    apply frame_emit.
Qed.

End FrameChain.

(* ===================================================================== *)
(** ** What a run emits: a property of every event *)
(* ===================================================================== *)

Section EventChain.
Import Py Props Obs Utils ExtractSkills.
Context (env : Env).
Variable P : event -> Prop.
Hypothesis P_log : forall lvl m, P (EvLog lvl m).
Hypothesis P_sleep : forall d, P (EvSleep d).
Hypothesis P_chat : forall prompt, P (attempt env prompt).
Hypothesis P_details :
  forall job_id, P (EvGet LINKEDIN_BASE_URL (details_params env job_id)).
Hypothesis P_listings :
  forall location_id page,
    P (EvGet LINKEDIN_BASE_URL (listings_params env field location_id page)).
Hypothesis P_header : P (EvWriterow OUTPUT_FILE sink_headers).
Hypothesis P_sink : forall job, P (EvWriterow OUTPUT_FILE (sink_row job)).
Hypothesis P_id : forall job_id, P (EvWriterow QUERIED_IDS_FILE (id_row job_id)).

Lemma all_chat_completion (prompt : string) : calm P (chat_completion env prompt).
Proof.
  intros w. unfold chat_completion. exists [attempt env prompt].
  destruct (chat_create env (trace w) _ _); simpl;
    (split; [reflexivity |]; split; [now apply files_grow_same |]);
    (split; [discriminate |]); repeat constructor; apply P_chat.
Qed.

Lemma all_retry_loop (fuel : nat) (prompt : string) (retries : Z) (delay : Q) :
  (Z.to_nat (MAX_RETRIES (config env) - retries) <= fuel)%nat ->
  calm P (retry_loop env fuel prompt retries delay).
Proof.
  revert retries delay.
  induction fuel as [|fuel IH]; intros retries delay Hfuel; simpl.
  - destruct (retries <? MAX_RETRIES (config env)) eqn:E; [apply Z.ltb_lt in E; lia |].
    apply calm_bind; [apply calm_log, P_log | intros _; apply calm_raise].
  - destruct (retries <? MAX_RETRIES (config env)) eqn:E.
    + apply calm_try; [apply all_chat_completion |].
      intros e. destruct (is_rate_limit_error e); [| apply calm_raise].
      apply calm_bind; [apply calm_log, P_log | intros _].
      apply calm_bind; [apply calm_emit, P_sleep | intros _].
      apply IH. apply Z.ltb_lt in E. lia.
    + apply calm_bind; [apply calm_log, P_log | intros _; apply calm_raise].
Qed.

Lemma all_extract_skills (job_description : json) :
  calm P (extract_skills env job_description).
Proof.
  unfold extract_skills, openai_request.
  apply calm_bind; [| intros r; apply calm_ret].
  apply all_retry_loop. rewrite Z.sub_0_r. lia.
Qed.

Lemma calm_in_set (v : json) (s : gset pykey) : calm P (in_set v s).
Proof. unfold in_set. destruct (key_of v); [apply calm_ret | apply calm_raise]. Qed.

Lemma all_process_job (s : gset pykey) (job : json)
    (acc : list JobRecord * list json) :
  calm P (process_job env s job acc).
Proof.
  unfold process_job.
  apply calm_bind; [apply calm_getitem | intros job_id].
  apply calm_bind; [apply calm_in_set | intros seen].
  destruct seen; [apply calm_ret |].
  apply calm_try.
  - unfold guarded_job, fetch_job_details.
    apply calm_bind; [apply calm_log, P_log | intros _].
    apply calm_bind; [apply calm_http_get, P_details | intros v].
    unfold process_details. destruct acc as [new_jobs new_job_ids].
    destruct (normalize v);
      try (apply calm_bind; [apply calm_log, P_log | intros _; apply calm_ret]).
    apply calm_bind; [apply all_extract_skills | intros skills; apply calm_ret].
  - intros e. unfold job_handler.
    destruct (is_request_exception e);
      (apply calm_bind; [apply calm_log, P_log | intros _; apply calm_ret]).
Qed.

Lemma all_for_jobs (s : gset pykey) (jobs : list json)
    (acc : list JobRecord * list json) :
  calm P (for_jobs env s jobs acc).
Proof.
  revert acc. induction jobs as [|job rest IH]; intros acc; simpl.
  - apply calm_ret.
  - apply calm_bind; [apply all_process_job | intros acc'; apply IH].
Qed.

Lemma Forall_rows {A} (f : A -> event) (l : list A) :
  (forall x, P (f x)) -> Forall P (map f l).
Proof. intros H. induction l; simpl; constructor; auto. Qed.

Lemma all_save_page (new_jobs : list JobRecord) (new_job_ids : list json)
    (total_job_ids : Z) (s : gset pykey) :
  calm P (save_page env new_jobs new_job_ids total_job_ids s).
Proof.
  destruct new_jobs as [|job more]; [apply calm_ret |].
  intros w.
  destruct (does_save_page env (job :: more) new_job_ids total_job_ids s w)
    as [t [Ht [Hg _]]].
  exists t. split; [exact Ht |]. split; [exact Hg |].
  rewrite save_page_run in Ht |- *. cbn [fst snd trace] in *.
  apply app_inv_head in Ht. subst t.
  split; [discriminate |].
  repeat (apply Forall_app; split).
  - destruct (files w !! OUTPUT_FILE); repeat constructor. exact P_header.
  - apply (Forall_rows (fun j => EvWriterow OUTPUT_FILE (sink_row j))). exact P_sink.
  - apply (Forall_rows (fun j => EvWriterow QUERIED_IDS_FILE (id_row j))). exact P_id.
  - repeat constructor. apply P_log.
Qed.

Lemma all_page_body (location_id : string) (page total_job_ids : Z)
    (s : gset pykey) :
  calm P (page_body env location_id page total_job_ids s).
Proof.
  unfold page_body, fetch_job_listings.
  apply calm_bind; [apply calm_log, P_log | intros _].
  apply calm_bind; [apply calm_http_get, P_listings | intros v].
  destruct (negb (truthy v)).
  - apply calm_bind; [apply calm_log, P_log | intros _; apply calm_ret].
  - apply calm_bind; [apply calm_iter | intros jobs].
    apply calm_bind; [apply all_for_jobs | intros [new_jobs new_job_ids]].
    apply calm_bind; [apply all_save_page | intros [total s']].
    apply calm_ret.
Qed.

Lemma all_while_pages (fuel : nat) (location_id : string) (page total_job_ids : Z)
    (s : gset pykey) :
  (Z.to_nat (101 - page) <= fuel)%nat ->
  calm P (while_pages env fuel location_id page total_job_ids s).
Proof.
  revert page total_job_ids s.
  induction fuel as [|fuel IH]; intros page total s Hfuel; simpl.
  - destruct (page <=? 100) eqn:E; [apply Z.leb_le in E; lia |].
    apply calm_ret.
  - destruct ((page <=? 100) && (total <? max_job_ids) && api_credits_remaining)
      eqn:E; [| apply calm_ret].
    eapply does_bind.
    + apply does_and; [apply (does_guarded_page env location_id page total s) |].
      apply calm_try; [apply all_page_body | intros e].
      unfold page_handler.
      destruct (is_request_exception e);
        (apply calm_bind; [apply calm_log, P_log | intros _; apply calm_ret]).
    + intros t c [[_ Hc] [_ Ht]].
      destruct Hc as [[[= ->] _] | [total' [= ->]]].
      * apply does_ret. rewrite app_nil_r. split; [discriminate | exact Ht].
      * eapply does_weaken; [apply IH; lia |].
        intros t' r [Hr Ht']. split; [exact Hr | now apply Forall_app].
    + intros t e [[_ [[[=] _] | [total' [=]]]] _].
    + intros t [_ [Hd _]]. contradiction.
Qed.

Lemma all_for_locations (location_ids : list string) (s : gset pykey) :
  calm P (for_locations env location_ids s).
Proof.
  revert s. induction location_ids as [|location rest IH]; intros s; simpl.
  - apply calm_ret.
  - apply calm_bind; [| intros s'; apply IH].
    unfold process_location.
    apply calm_bind; [apply calm_log, P_log | intros _].
    apply all_while_pages. simpl. lia.
Qed.

Lemma all_main : calm P (main env).
Proof.
  unfold main. generalize LOCATION_IDS. intros location_ids.
  apply calm_bind; [apply calm_log, P_log | intros _].
  apply calm_bind.
  - intros w. exists []. unfold load_queried_ids.
    destruct (files w !! QUERIED_IDS_FILE); simpl; rewrite app_nil_r;
      (split; [reflexivity |]; split; [apply files_grow_refl |]);
      (split; [discriminate | constructor]).
  - intros s. apply calm_bind; [apply all_for_locations | intros _].
    apply calm_log, P_log.
Qed.

End EventChain.

(* ===================================================================== *)
(** ** Skills: what the parser delivers and what the sink keeps *)
(* ===================================================================== *)

Section SkillsMore.
Import Py Props Obs ExtractSkills.

Lemma has_comma_lstrip (s : string) :
  PyStr.has_comma s = false -> PyStr.has_comma (PyStr.lstrip s) = false.
Proof.
  induction s as [|c s IH]; simpl; [reflexivity |].
  intros H. destruct (PyStr.isspace c); [| exact H].
  apply orb_false_elim in H as [_ H]. auto.
Qed.

Lemma has_comma_rstrip (s : string) :
  PyStr.has_comma s = false -> PyStr.has_comma (PyStr.rstrip s) = false.
Proof.
  induction s as [|c s IH]; simpl; [reflexivity |].
  intros H. apply orb_false_elim in H as [Hc Hs]. specialize (IH Hs).
  destruct (PyStr.rstrip s) as [|y r].
  - destruct (PyStr.isspace c); simpl; [reflexivity | now rewrite Hc].
  - simpl in *. now rewrite Hc, IH.
Qed.

Lemma parse_skills_clean (response skill : string) :
  In skill (parse_skills response) -> clean skill.
Proof.
  intros H. rewrite parse_skills_spec in H.
  destruct (skills_of_response_clean response skill H) as [Ht Hne].
  split; [exact Ht |]. split; [exact Hne |].
  unfold skills_of_response in H.
  apply filter_In in H as [H _].
  apply in_map_iff in H as [fragment [<- Hin]].
  unfold PyStr.strip. apply has_comma_rstrip, has_comma_lstrip.
  pose proof (split_comma_no_comma response) as Hall.
  rewrite Forall_forall in Hall. apply Hall. now apply list_elem_of_In.
Qed.

Lemma strip_clean (skill : string) : clean skill -> PyStr.strip skill = skill.
Proof.
  intros [Ht _].
  rewrite <- (append_empty_r skill) at 1.
  apply (strip_unique EmptyString skill EmptyString); auto.
Qed.

Lemma nonempty_clean (skill : string) : clean skill -> PyStr.nonempty skill = true.
Proof. intros [_ [Hne _]]. destruct skill; [contradiction | reflexivity]. Qed.

Lemma parse_skills_fragment (f rest : string) :
  PyStr.has_comma f = false ->
  parse_skills (f +:+ "," +:+ rest) =
    (if PyStr.nonempty (PyStr.strip f) then [PyStr.strip f] else [])
    ++ parse_skills rest.
Proof.
  intros H. unfold parse_skills. now rewrite split_comma_app by exact H.
Qed.

(** A leading blank before the next fragment is trimmed away. *)
Lemma parse_skills_blank (c : ascii) (s : string) :
  PyStr.isspace c = true -> parse_skills (String c s) = parse_skills s.
Proof.
  intros Hc. unfold parse_skills. simpl.
  assert (Hn : Ascii.eqb c PyStr.comma = false).
  { destruct (Ascii.eqb c PyStr.comma) eqn:E; [| reflexivity].
    apply Ascii.eqb_eq in E. subst c. discriminate Hc. }
  rewrite Hn.
  destruct (PyStr.split_comma s) as [|h t] eqn:Hs;
    [now apply split_comma_not_nil in Hs |].
  simpl. unfold PyStr.strip at 1 2 3. simpl. now rewrite Hc.
Qed.

Lemma parse_skills_join (l : list string) :
  Forall clean l -> parse_skills (PyStr.join ", " l) = l.
Proof.
  induction l as [|x l IH]; intros H; [reflexivity |].
  inversion H as [|? ? Hx Hl]; subst.
  destruct l as [|y l'].
  - simpl. unfold parse_skills.
    rewrite split_comma_fragment by apply Hx. simpl.
    now rewrite strip_clean, nonempty_clean by exact Hx.
  - rewrite join_cons by discriminate.
    change (x +:+ ", " +:+ PyStr.join ", " (y :: l'))
      with (x +:+ "," +:+ String " " (PyStr.join ", " (y :: l'))).
    rewrite parse_skills_fragment by apply Hx.
    rewrite strip_clean, nonempty_clean by exact Hx.
    rewrite parse_skills_blank by reflexivity.
    now rewrite IH.
Qed.

(** X6. The skills cell of a sink row parses back to the skills of the
    record, whenever these are as [parse_skills] delivers them; in
    particular for the skills of any model response. *)
Theorem sink_skills_round_trip (job : JobRecord) :
  Forall clean (skills job) ->
  exists cell,
    sink_row job = [ job_position job; company_name job; seniority_level job;
                     job_location job; JStr cell ] /\
    parse_skills cell = skills job.
Proof.
  intros H. exists (PyStr.join ", " (skills job)).
  split; [reflexivity | now apply parse_skills_join].
Qed.

Lemma parse_skills_all_clean (response : string) :
  Forall clean (parse_skills response).
Proof.
  apply Forall_forall. intros skill H.
  apply parse_skills_clean with response. now apply list_elem_of_In.
Qed.

(** X5. Every skill [parse_skills] returns is non-empty, has no
    whitespace at its ends and contains no comma. *)
Theorem parse_skills_delivers_clean (response : string) :
  Forall clean (parse_skills response).
Proof.
  apply Forall_forall. intros skill H.
  apply list_elem_of_In in H.
  destruct (parse_skills_clean response skill H) as [Ht [Hne Hc]].
  split; [exact Ht |]. split; [exact Hne | exact Hc].
Qed.

End SkillsMore.

Lemma sink_skills_round_trip_witness :
  exists cell,
    Props.sink_row Sample.record1 =
      [ ExtractSkills.job_position Sample.record1;
        ExtractSkills.company_name Sample.record1;
        ExtractSkills.seniority_level Sample.record1;
        ExtractSkills.job_location Sample.record1; Py.JStr cell ] /\
    ExtractSkills.parse_skills cell = ["Python"; "SQL"].
Proof.
  apply (sink_skills_round_trip Sample.record1).
  apply (parse_skills_all_clean "Python, SQL").
Defined.

(* ===================================================================== *)
(** ** The dedupe file: what is written and what is read back *)
(* ===================================================================== *)

Section DedupeMore.
Import Py Props Obs ExtractSkills.
Context (env : Env).

Lemma rows_text_app (csv : list json -> string) (r1 r2 : list (list json)) :
  rows_text csv (r1 ++ r2) = rows_text csv r1 +:+ rows_text csv r2.
Proof.
  induction r1 as [|row r1 IH]; simpl; [reflexivity |].
  now rewrite IH, append_assoc.
Qed.

(** X7. The header row is written once: two batches saved one after the
    other leave the same files and the same trace as one save of both. *)
Theorem save_job_data_twice (file_path : string) (jobs1 jobs2 : list JobRecord)
    (w : world) :
  (save_job_data env file_path jobs1;; save_job_data env file_path jobs2) w =
    save_job_data env file_path (jobs1 ++ jobs2) w.
Proof.
  erewrite bind_ok by apply save_job_data_run.
  rewrite !save_job_data_run. simpl.
  rewrite lookup_insert_eq. simpl.
  rewrite insert_insert_eq, map_app, map_app, rows_text_app, append_assoc.
  rewrite <- !app_assoc. reflexivity.
Qed.

(** X8. Ids saved in two calls leave the same files and trace as one call
    with both lists; a call creates the file when it is missing, also for
    an empty list. *)
Theorem save_queried_ids_twice (file_path : string) (ids1 ids2 : list json)
    (w : world) :
  (save_queried_ids env file_path ids1;; save_queried_ids env file_path ids2) w =
    save_queried_ids env file_path (ids1 ++ ids2) w /\
  is_Some (files (save_queried_ids env file_path ids1 w).1 !! file_path).
Proof.
  split.
  - erewrite bind_ok by apply save_queried_ids_run.
    rewrite !save_queried_ids_run. simpl.
    rewrite lookup_insert_eq. simpl.
    rewrite insert_insert_eq, map_app, map_app, rows_text_app, append_assoc.
    rewrite <- !app_assoc. reflexivity.
  - rewrite save_queried_ids_run. simpl. rewrite lookup_insert_eq. eauto.
Qed.

Lemma complete_cons (c : ascii) (r : string) :
  r <> EmptyString -> complete (String c r) = complete r.
Proof. destruct r; [contradiction | reflexivity]. Qed.

Lemma lines_from_cons (cur : string) (c : ascii) (r : string) :
  PyStr.lines_from cur (String c r) =
    if Ascii.eqb c PyStr.LF
    then (cur +:+ String PyStr.LF EmptyString) :: PyStr.lines_from EmptyString r
    else if Ascii.eqb c PyStr.CR
    then (cur +:+ String PyStr.LF EmptyString) ::
         match r with
         | String c' r' => if Ascii.eqb c' PyStr.LF
                           then PyStr.lines_from EmptyString r'
                           else PyStr.lines_from EmptyString r
         | EmptyString => []
         end
    else PyStr.lines_from (cur +:+ String c EmptyString) r.
Proof. reflexivity. Qed.

Lemma lines_from_complete (n : nat) (old x cur : string) :
  (String.length old <= n)%nat ->
  complete old = true -> (old = EmptyString -> cur = EmptyString) ->
  PyStr.lines_from cur (old +:+ x) =
    PyStr.lines_from cur old ++ PyStr.lines_from EmptyString x.
Proof.
  revert old cur. induction n as [|n IH]; intros old cur Hlen Hc Hcur.
  - destruct old; [| simpl in Hlen; lia].
    rewrite (Hcur eq_refl). reflexivity.
  - destruct old as [|c r]; [rewrite (Hcur eq_refl); reflexivity |].
    simpl in Hlen. rewrite append_cons.
    rewrite (lines_from_cons cur c (r +:+ x)), (lines_from_cons cur c r).
    destruct (Ascii.eqb c PyStr.LF) eqn:Elf.
    + rewrite <- app_comm_cons. f_equal. apply IH; [lia | | reflexivity].
      destruct r; [reflexivity | exact Hc].
    + destruct r as [|c' r'].
      * simpl in Hc. congruence.
      * rewrite complete_cons in Hc by discriminate.
        destruct (Ascii.eqb c PyStr.CR) eqn:Ecr.
        -- rewrite append_cons. cbv iota.
           rewrite <- app_comm_cons. f_equal.
           destruct (Ascii.eqb c' PyStr.LF) eqn:Elf'.
           ++ apply IH; [simpl in Hlen; lia | | reflexivity].
              destruct r'; [reflexivity |].
              rewrite complete_cons in Hc by discriminate. exact Hc.
           ++ rewrite <- append_cons. apply IH; [lia | | discriminate].
              exact Hc.
        -- apply IH; [lia | exact Hc | discriminate].
Qed.

Lemma file_lines_complete (old x : string) :
  complete old = true ->
  PyStr.file_lines (old +:+ x) = PyStr.file_lines old ++ PyStr.file_lines x.
Proof.
  intros H. unfold PyStr.file_lines.
  now apply (lines_from_complete (String.length old)).
Qed.

Lemma lines_from_plain (id rest cur : string) :
  has_newline id = false ->
  PyStr.lines_from cur (id +:+ CRLF +:+ rest) =
    (cur +:+ id +:+ String PyStr.LF EmptyString)
    :: PyStr.lines_from EmptyString rest.
Proof.
  revert cur. induction id as [|c id IH]; intros cur H.
  - reflexivity.
  - simpl in H. apply orb_false_elim in H as [Hc Hid].
    apply orb_false_elim in Hc as [Hlf Hcr].
    rewrite append_cons, lines_from_cons, Hlf, Hcr.
    rewrite IH by exact Hid. now rewrite append_assoc.
Qed.

Lemma file_lines_ids (ids : list string) :
  Forall plain_id ids ->
  (forall id, In id ids -> csv_row env (id_row (JStr id)) = id +:+ CRLF) ->
  PyStr.file_lines (rows_text (csv_row env) (map id_row (map JStr ids)))
  = map (fun id => id +:+ String PyStr.LF EmptyString) ids.
Proof.
  induction ids as [|id ids IH]; intros Hp Hcsv; [reflexivity |].
  inversion Hp as [|? ? [_ Hnl] Hrest]; subst.
  simpl. rewrite (Hcsv id) by now left.
  unfold PyStr.file_lines. rewrite append_assoc.
  rewrite lines_from_plain by exact Hnl. simpl. f_equal.
  apply IH; [exact Hrest |]. intros id' Hin. apply Hcsv. now right.
Qed.

Lemma strip_line (id : string) :
  plain_id id -> PyStr.strip (id +:+ String PyStr.LF EmptyString) = id.
Proof.
  intros [Ht _].
  apply (strip_unique EmptyString id (String PyStr.LF EmptyString)); auto.
Qed.

Lemma keys_of_strings (ids : list string) :
  omap key_of (map JStr ids) = map KStr ids.
Proof. induction ids; simpl; [reflexivity | now f_equal]. Qed.

(** X9. Round trip of the dedupe file. When the file is missing or ends
    with a line feed, and the ids are strings without line break and
    without whitespace at their ends that [csv.writer] writes as they are,
    then loading the file after [save_queried_ids] gives the set loaded
    before, updated with these ids: the set the run holds in memory. *)
Theorem dedupe_round_trip (file_path : string) (ids : list string) (w : world)
    (s : gset pykey) :
  match files w !! file_path with
  | Some text => complete text = true
  | None => True
  end ->
  Forall plain_id ids ->
  (forall id, In id ids -> csv_row env (id_row (JStr id)) = id +:+ CRLF) ->
  load_queried_ids file_path w = (w, Ok s) ->
  let w' := (save_queried_ids env file_path (map JStr ids) w).1 in
  load_queried_ids file_path w' = (w', Ok (set_update s (map JStr ids))).
Proof.
  intros Hold Hp Hcsv Hload w'. subst w'.
  rewrite save_queried_ids_run. cbn [fst].
  unfold load_queried_ids in *. cbn [files]. rewrite lookup_insert_eq.
  f_equal. f_equal.
  assert (Hnew : forall old, complete old = true ->
            list_to_set
              (map (fun line => KStr (PyStr.strip line))
                 (PyStr.file_lines
                    (old +:+ rows_text (csv_row env) (map id_row (map JStr ids)))))
            = (list_to_set (map (fun line => KStr (PyStr.strip line))
                              (PyStr.file_lines old)) : gset pykey)
              ∪ list_to_set (map KStr ids)).
  { intros old Hc. rewrite file_lines_complete by exact Hc.
    rewrite map_app, list_to_set_app_L. f_equal.
    rewrite file_lines_ids by assumption.
    rewrite map_map. f_equal.
    apply map_ext_in. intros id Hin. f_equal. apply strip_line.
    rewrite Forall_forall in Hp. apply Hp. now apply list_elem_of_In. }
  unfold set_update. rewrite keys_of_strings.
  destruct (files w !! file_path) as [text|].
  - injection Hload as <-. simpl. now apply Hnew.
  - injection Hload as <-. simpl.
    rewrite (Hnew EmptyString eq_refl). reflexivity.
Qed.

(** X10. Whatever the file holds, the loaded ids are strings without
    whitespace at their ends: an id that the listings API delivers as a
    number, a boolean or null is never found in the loaded set. *)
Theorem loaded_ids_are_strings (file_path : string) (w : world) :
  exists s,
    load_queried_ids file_path w = (w, Ok s) /\
    (forall k, k ∈ s -> exists id, k = KStr id /\ PyStr.trimmed id) /\
    (forall job_id k, key_of job_id = Some k ->
       (forall id, job_id <> JStr id) -> in_set job_id s w = (w, Ok false)).
Proof.
  destruct (load_queried_ids_run file_path w) as [s Hs].
  exists s. split; [exact Hs |].
  assert (Hstr : forall k, k ∈ s -> exists id, k = KStr id /\ PyStr.trimmed id).
  { intros k Hk. unfold load_queried_ids in Hs.
    destruct (files w !! file_path) as [text|].
    - injection Hs as <-.
      apply elem_of_list_to_set, list_elem_of_In, in_map_iff in Hk
        as [line [<- _]].
      eexists. split; [reflexivity | apply strip_trimmed].
    - injection Hs as <-. now apply not_elem_of_empty in Hk. }
  split; [exact Hstr |].
  intros job_id k Hk Hns. unfold in_set. rewrite Hk.
  rewrite bool_decide_eq_false_2; [reflexivity |].
  intros Hin. destruct (Hstr k Hin) as [id [-> _]].
  destruct job_id; try discriminate. simpl in Hk. injection Hk as ->.
  now apply (Hns id).
Qed.

End DedupeMore.

(* ===================================================================== *)
(** ** More on the driver *)
(* ===================================================================== *)

Section DriverMore.
Import Py Props Obs Utils ExtractSkills.
Context (env : Env).

Lemma bind_ok_inv {A B} (m : M A) (f : A -> M B) (w w' : world) (b : B) :
  (m ≫= f) w = (w', Ok b) ->
  exists w1 a, m w = (w1, Ok a) /\ f a w1 = (w', Ok b).
Proof.
  unfold mbind, M_bind. destruct (m w) as [w1 [a | e |]]; intros H;
    try discriminate. eauto.
Qed.

Lemma try_ok_inv {A} (m : M A) (h : exn -> M A) (w w' : world) (a : A) :
  try_except m h w = (w', Ok a) ->
  m w = (w', Ok a) \/ exists w1 e, m w = (w1, Raise e) /\ h e w1 = (w', Ok a).
Proof.
  unfold try_except. destruct (m w) as [w1 [x | e |]]; intros H;
    try discriminate; [left; exact H | right; eauto].
Qed.

(** X4. In every environment [openai_request] comes back after at most
    [MAX_RETRIES] chat completions, sleeps at most once per completion,
    touches no file, and what it returns has no whitespace at its ends. *)
Theorem openai_request_bounded (prompt : string) (w : world) :
  exists t,
    trace (openai_request env prompt w).1 = trace w ++ t /\
    files (openai_request env prompt w).1 = files w /\
    (count is_chat t <= Z.to_nat (MAX_RETRIES (config env)))%nat /\
    (count is_sleep t <= count is_chat t)%nat /\
    (openai_request env prompt w).2 <> Diverge /\
    forall response, (openai_request env prompt w).2 = Ok response ->
                     PyStr.trimmed response.
Proof.
  unfold openai_request.
  destruct (does_retry_loop env (Z.to_nat (MAX_RETRIES (config env))) prompt 0
              (INITIAL_DELAY (config env)) ltac:(rewrite Z.sub_0_r; lia) w)
    as [t [Ht [_ [Hc [Hs [Hd Hr]]]]]].
  exists t. rewrite Z.sub_0_r in Hc.
  split; [exact Ht |]. split; [| auto].
  apply frame_none, frame_retry_loop.
Qed.

(* --------------------------------------------------------------------- *)
(** *** The loop over the listings of a page *)

Lemma grown_refl (s : gset pykey) (acc : list JobRecord * list json) :
  grown s acc acc.
Proof.
  exists [], []. rewrite !app_nil_r. repeat split; constructor.
Qed.

Lemma grown_trans (s : gset pykey) (a b c : list JobRecord * list json) :
  grown s a b -> grown s b c -> grown s a c.
Proof.
  intros [x1 [y1 [E1 [E2 [L1 F1]]]]] [x2 [y2 [E3 [E4 [L2 F2]]]]].
  exists (x1 ++ x2), (y1 ++ y2).
  rewrite E3, E4, E1, E2, <- !app_assoc, !length_app.
  repeat split; [lia | now apply Forall_app].
Qed.

Lemma process_job_grows (s : gset pykey) (job : json)
    (acc acc' : list JobRecord * list json) (w w' : world) :
  process_job env s job acc w = (w', Ok acc') -> grown s acc acc'.
Proof.
  unfold process_job. intros H.
  apply bind_ok_inv in H as [w1 [job_id [_ H]]].
  apply bind_ok_inv in H as [w2 [seen [Hseen H]]].
  unfold in_set in Hseen. destruct (key_of job_id) as [k|] eqn:Hk; [| discriminate].
  injection Hseen as <- <-.
  destruct (bool_decide (k ∈ s)) eqn:Hs.
  - injection H as <- <-. apply grown_refl.
  - apply bool_decide_eq_false in Hs.
    apply try_ok_inv in H as [H | [w3 [e [_ H]]]].
    + unfold guarded_job in H.
      apply bind_ok_inv in H as [w3 [[] [_ H]]].
      apply bind_ok_inv in H as [w4 [v [_ H]]].
      unfold process_details in H. destruct acc as [new_jobs new_job_ids].
      destruct (normalize v);
        try (apply bind_ok_inv in H as [w5 [[] [_ H]]];
             injection H as <- <-; apply grown_refl).
      apply bind_ok_inv in H as [w5 [skills [_ H]]].
      injection H as <- <-.
      exists [job_record d skills], [job_id]. simpl.
      repeat split. constructor; [eauto | constructor].
    + rewrite job_handler_run in H. injection H as <- <-. apply grown_refl.
Qed.

Lemma for_jobs_grows (s : gset pykey) (jobs : list json)
    (acc acc' : list JobRecord * list json) (w w' : world) :
  for_jobs env s jobs acc w = (w', Ok acc') -> grown s acc acc'.
Proof.
  revert acc w. induction jobs as [|job rest IH]; intros acc w H; simpl in H.
  - injection H as <- <-. apply grown_refl.
  - apply bind_ok_inv in H as [w1 [acc1 [H1 H]]].
    eapply grown_trans; [eapply process_job_grows; exact H1 | eapply IH; exact H].
Qed.

Lemma not_write_log (lvl : level) (m : log_msg) : is_write (EvLog lvl m) = false.
Proof. reflexivity. Qed.

(** X11. The loop over the listings of a page comes back, writes nothing
    and leaves the files alone; the two lists it collects only grow, by as
    many records as ids, and every id added is hashable and was not in the
    dedupe set. *)
Theorem for_jobs_collects (s : gset pykey) (jobs : list json)
    (acc : list JobRecord * list json) (w : world) :
  exists t,
    trace (for_jobs env s jobs acc w).1 = trace w ++ t /\
    Forall (fun ev => is_write ev = false) t /\
    files (for_jobs env s jobs acc w).1 = files w /\
    (for_jobs env s jobs acc w).2 <> Diverge /\
    forall acc', (for_jobs env s jobs acc w).2 = Ok acc' -> grown s acc acc'.
Proof.
  destruct (all_for_jobs env (fun ev => is_write ev = false)
              ltac:(reflexivity) ltac:(reflexivity) ltac:(reflexivity)
              ltac:(reflexivity) s jobs acc w) as [t [Ht [_ [Hd Hall]]]].
  exists t. split; [exact Ht |]. split; [exact Hall |].
  split; [apply frame_none, frame_for_jobs |]. split; [exact Hd |].
  intros acc' H.
  destruct (for_jobs env s jobs acc w) as [w' r] eqn:E. simpl in H. subst r.
  eapply for_jobs_grows. exact E.
Qed.

(* --------------------------------------------------------------------- *)
(** *** How a page can end *)

Lemma while_pages_step (fuel : nat) (location_id : string) (page total_job_ids : Z)
    (s : gset pykey) (w w' : world) (c : ctl) :
  page <= 100 -> total_job_ids < max_job_ids ->
  try_except (page_body env location_id page total_job_ids s) page_handler w
    = (w', Ok c) ->
  while_pages env (S fuel) location_id page total_job_ids s w =
    match c with
    | Break => (w', Ok s)
    | NextPage page' total' s' => while_pages env fuel location_id page' total' s' w'
    end.
Proof.
  intros Hp Ht H. simpl.
  replace (page <=? 100) with true by (symmetry; now apply Z.leb_le).
  replace (total_job_ids <? max_job_ids) with true by (symmetry; now apply Z.ltb_lt).
  simpl. erewrite bind_ok by exact H. now destruct c.
Qed.

Lemma page_body_unfold (location_id : string) (page total_job_ids : Z)
    (s : gset pykey) :
  page_body env location_id page total_job_ids s =
    (log INFO (FetchingPage page);;
     job_listings ← fetch_job_listings env field location_id page;
     after_fetch env page total_job_ids s job_listings).
Proof. reflexivity. Qed.

Lemma page_body_fetched (location_id : string) (page total_job_ids : Z)
    (s : gset pykey) (w : world) (v : json) :
  requests_get_json env (trace w ++ [EvLog INFO (FetchingPage page)])
    LINKEDIN_BASE_URL (listings_params env field location_id page) = Returned v ->
  page_body env location_id page total_job_ids s w =
    after_fetch env page total_job_ids s v
      (logged w [ EvLog INFO (FetchingPage page);
                  EvGet LINKEDIN_BASE_URL
                    (listings_params env field location_id page) ]).
Proof.
  intros H. rewrite page_body_unfold. unfold fetch_job_listings.
  erewrite bind_ok by apply log_run.
  erewrite bind_ok by (apply http_get_returned; exact H).
  now rewrite logged_logged.
Qed.

Lemma while_pages_empty (fuel : nat) (location_id : string)
    (page total_job_ids : Z) (s : gset pykey) (w : world) (v : json) :
  page <= 100 -> total_job_ids < max_job_ids ->
  requests_get_json env (trace w ++ [EvLog INFO (FetchingPage page)])
    LINKEDIN_BASE_URL (listings_params env field location_id page) = Returned v ->
  truthy v = false ->
  while_pages env (S fuel) location_id page total_job_ids s w =
    (logged w [ EvLog INFO (FetchingPage page);
                EvGet LINKEDIN_BASE_URL (listings_params env field location_id page);
                EvLog INFO NoMoreListings ],
     Ok s).
Proof.
  intros Hp Ht Hv Hfalsy.
  erewrite while_pages_step; try eassumption.
  2:{ apply try_ok. rewrite (page_body_fetched _ _ _ _ _ v) by exact Hv.
      unfold after_fetch. rewrite Hfalsy. change (negb false) with true. cbv iota.
      erewrite bind_ok by apply log_run. reflexivity. }
  cbv iota. now rewrite logged_logged.
Qed.

(** X12. A page without listings (an empty list, or any other falsy
    answer) ends the pagination of the location without error: one
    request, one log line, nothing written, the set as it was. *)
Theorem empty_page_ends_location (fuel : nat) (location_id : string)
    (page total_job_ids : Z) (s : gset pykey) (w : world) (v : json) :
  page <= 100 -> total_job_ids < max_job_ids ->
  requests_get_json env (trace w ++ [EvLog INFO (FetchingPage page)])
    LINKEDIN_BASE_URL (listings_params env field location_id page) = Returned v ->
  truthy v = false ->
  while_pages env (S fuel) location_id page total_job_ids s w =
    (logged w [ EvLog INFO (FetchingPage page);
                EvGet LINKEDIN_BASE_URL (listings_params env field location_id page);
                EvLog INFO NoMoreListings ],
     Ok s).
Proof.
  intros Hp Ht Hv Hfalsy.
  assert (Hbody : page_body env location_id page total_job_ids s w =
            (logged w [ EvLog INFO (FetchingPage page);
                        EvGet LINKEDIN_BASE_URL
                          (listings_params env field location_id page);
                        EvLog INFO NoMoreListings ], Ok Break)).
  { rewrite (page_body_fetched _ _ _ _ _ v) by exact Hv.
    unfold after_fetch. rewrite Hfalsy. change (negb false) with true. cbv iota.
    erewrite bind_ok by apply log_run. now rewrite logged_logged. }
  erewrite while_pages_step; try eassumption; [| apply try_ok; exact Hbody].
  reflexivity.
Qed.

(** X13. When an exception escapes the loop over the listings of a page
    (a listing without [job_id], an unhashable id), the records collected
    on that page are dropped: the handler of the page logs the exception,
    no file has been touched, and the pagination of the location stops
    with the set as it was. *)
Theorem broken_listing_drops_page (fuel : nat) (location_id : string)
    (page total_job_ids : Z) (s : gset pykey) (w w2 : world) (v : json)
    (jobs : list json) (e : exn) :
  page <= 100 -> total_job_ids < max_job_ids ->
  let w1 := logged w [ EvLog INFO (FetchingPage page);
                       EvGet LINKEDIN_BASE_URL
                         (listings_params env field location_id page) ] in
  requests_get_json env (trace w ++ [EvLog INFO (FetchingPage page)])
    LINKEDIN_BASE_URL (listings_params env field location_id page) = Returned v ->
  truthy v = true ->
  iter v w1 = (w1, Ok jobs) ->
  for_jobs env s jobs ([], []) w1 = (w2, Raise e) ->
  while_pages env (S fuel) location_id page total_job_ids s w =
    (logged w2 [EvLog ERROR (page_error e)], Ok s) /\
  files w2 = files w.
Proof.
  intros Hp Ht w1 Hv Htruthy Hiter Hjobs. split.
  - erewrite while_pages_step; try eassumption.
    2:{ erewrite try_raise; [apply page_handler_run |].
        rewrite (page_body_fetched _ _ _ _ _ v) by exact Hv.
        unfold after_fetch. rewrite Htruthy. change (negb true) with false. cbv iota.
        rewrite (bind_ok _ _ _ _ _ Hiter).
        now rewrite (bind_raise _ _ _ _ _ Hjobs). }
    reflexivity.
  - pose proof (frame_none (for_jobs env s jobs ([], [])) w1
                  (frame_for_jobs env no_file s jobs ([], []))) as Hf.
    rewrite Hjobs in Hf. exact Hf.
Qed.

(** X14. A listings answer that is truthy but not a list (a number,
    [true], a non-empty string or mapping such as an error object) stops
    the pagination of the location with a [TypeError] logged by the
    handler of the page: no detail is asked for and nothing is written. *)
Theorem non_list_answer_stops_location (fuel : nat) (location_id : string)
    (page total_job_ids : Z) (s : gset pykey) (w : world) (v : json) :
  page <= 100 -> total_job_ids < max_job_ids ->
  requests_get_json env (trace w ++ [EvLog INFO (FetchingPage page)])
    LINKEDIN_BASE_URL (listings_params env field location_id page) = Returned v ->
  truthy v = true ->
  (forall l, v <> JList l) ->
  exists msg,
    while_pages env (S fuel) location_id page total_job_ids s w =
      (logged w [ EvLog INFO (FetchingPage page);
                  EvGet LINKEDIN_BASE_URL
                    (listings_params env field location_id page);
                  EvLog ERROR (UnexpectedError (TypeError msg)) ],
       Ok s).
Proof.
  intros Hp Ht Hv Htruthy Hnl.
  assert (H : exists msg,
            after_fetch env page total_job_ids s v
              (logged w [ EvLog INFO (FetchingPage page);
                          EvGet LINKEDIN_BASE_URL
                            (listings_params env field location_id page) ])
            = (logged w [ EvLog INFO (FetchingPage page);
                          EvGet LINKEDIN_BASE_URL
                            (listings_params env field location_id page) ],
               Raise (TypeError msg))).
  { unfold after_fetch. rewrite Htruthy. change (negb true) with false. cbv iota.
    destruct v as [| b | z | str | l | d]; try discriminate.
    - eexists. apply bind_raise. reflexivity.
    - eexists. apply bind_raise. reflexivity.
    - destruct str as [|c r]; [discriminate |].
      eexists. erewrite bind_ok by reflexivity.
      apply bind_raise. simpl. apply bind_raise. apply bind_raise. reflexivity.
    - now destruct (Hnl l).
    - destruct d as [|[key x] d]; [discriminate |].
      eexists. erewrite bind_ok by reflexivity.
      apply bind_raise. simpl. apply bind_raise. apply bind_raise. reflexivity. }
  destruct H as [msg H]. exists msg.
  erewrite while_pages_step; try eassumption.
  2:{ erewrite try_raise; [apply page_handler_run |].
      rewrite (page_body_fetched _ _ _ _ _ v) by exact Hv. exact H. }
  cbv iota. now rewrite logged_logged.
Qed.

(* --------------------------------------------------------------------- *)
(** *** The dedupe set and the run as a whole *)

Lemma replay_grows (s : gset pykey) (t : list event) : s ⊆ replay s t.
Proof.
  revert s. induction t as [|ev t IH]; intros s; [reflexivity |].
  transitivity (replay1 s ev); [| apply IH].
  destruct ev; try reflexivity. simpl.
  destruct (String.eqb path QUERIED_IDS_FILE); [| reflexivity].
  unfold set_update. apply union_subseteq_l.
Qed.

(** X15. The in-memory dedupe set never loses an id: the loop over the
    locations always hands back a set that contains the one it was given. *)
Theorem dedupe_set_only_grows (location_ids : list string) (s : gset pykey)
    (w : world) :
  exists s', (for_locations env location_ids s w).2 = Ok s' /\ s ⊆ s'.
Proof.
  destruct (does_for_locations env location_ids s w) as [t [_ [_ [_ Hr]]]].
  exists (replay s t). split; [exact Hr | apply replay_grows].
Qed.

(** X16. Everything a run sends out has the expected shape: every HTTP
    request goes to the one base URL with the configured API key, every
    chat completion uses the configured model with the fixed system
    message and one user message, and every row written goes to the sink
    file with five cells or to the dedupe file with one. *)
Theorem main_events_expected (w : world) :
  exists t,
    trace (main env w).1 = trace w ++ t /\ Forall (expected env) t.
Proof.
  assert (H : calm (expected env) (main env)).
  { apply all_main; simpl; auto.
    - intros prompt. split; [reflexivity | now exists prompt]. }
  destruct (H w) as [t [Ht [_ [_ Hall]]]]. eauto.
Qed.

(** X17. A run changes no file other than the sink file and the dedupe
    file: any other path holds after the run what it held before. *)
Theorem main_touches_data_files_only (w : world) (path : string) :
  path <> OUTPUT_FILE -> path <> QUERIED_IDS_FILE ->
  files (main env w).1 !! path = files w !! path.
Proof.
  intros Ho Hq. apply (frame_main env). intros [-> | ->]; contradiction.
Qed.

End DriverMore.

(* ===================================================================== *)
(** ** Pagination in order; a run that meets only known ids *)
(* ===================================================================== *)

Section RunMore.
Import Py Props Obs Utils ExtractSkills.
Context (env : Env).

Lemma filter_none (t : list event) :
  Forall not_listings t -> List.filter is_listings_call t = [].
Proof.
  induction 1 as [|ev t Hev _ IH]; [reflexivity |].
  simpl. unfold not_listings in Hev. now rewrite Hev.
Qed.

Lemma does_http_get_exact (url : string) (params : list (string * json)) :
  does (http_get env url params)
       (fun t r => t = [EvGet url params] /\ r <> Diverge).
Proof.
  intros w. unfold http_get. exists [EvGet url params].
  destruct (requests_get_json env (trace w) url params); simpl;
    (split; [reflexivity |]; split; [now apply files_grow_same |]);
    (split; [reflexivity | discriminate]).
Qed.

Lemma calm_after_fetch (page total_job_ids : Z) (s : gset pykey) (v : json) :
  calm not_listings (after_fetch env page total_job_ids s v).
Proof.
  unfold after_fetch. destruct (negb (truthy v)).
  - apply calm_bind; [apply calm_log; reflexivity | intros _; apply calm_ret].
  - apply calm_bind; [apply calm_iter | intros jobs].
    apply calm_bind; [apply all_for_jobs; reflexivity
                     | intros [new_jobs new_job_ids]].
    apply calm_bind; [apply all_save_page; reflexivity | intros [total s']].
    apply calm_ret.
Qed.

(** One turn of the [while]: exactly one listings request, for this page. *)
Lemma guarded_page_calls (location_id : string) (page total_job_ids : Z)
    (s : gset pykey) :
  does (try_except (page_body env location_id page total_job_ids s) page_handler)
       (fun t r =>
          List.filter is_listings_call t =
            [EvGet LINKEDIN_BASE_URL (listings_params env field location_id page)]).
Proof.
  eapply does_try with
    (Q := fun t r =>
            List.filter is_listings_call t =
              [EvGet LINKEDIN_BASE_URL (listings_params env field location_id page)]).
  - rewrite page_body_unfold. unfold fetch_job_listings.
    eapply does_bind; [apply does_log_exact | | |].
    + intros t [] [-> _].
      eapply does_bind; [apply does_http_get_exact | | |].
      * intros t v [-> _].
        eapply does_weaken; [apply calm_after_fetch |].
        intros t' r [_ Hall]. simpl. now rewrite filter_none.
      * intros t e [-> _]. reflexivity.
      * intros t [_ Hd]. contradiction.
    + intros t e [_ [=]].
    + intros t [_ [=]].
  - intros t e Ht. unfold page_handler.
    destruct (is_request_exception e);
      (eapply does_bind; [apply does_log_exact | | |];
       [ intros t' [] [-> _]; apply does_ret;
         rewrite !List.filter_app, Ht; reflexivity
       | intros t' e' [_ [=]]
       | intros t' [_ [=]] ]).
  - intros t a Ht. exact Ht.
  - intros t Ht. exact Ht.
Qed.

Lemma does_while_page_calls (fuel : nat) (location_id : string)
    (page total_job_ids : Z) (s : gset pykey) :
  (Z.to_nat (101 - page) <= fuel)%nat ->
  does (while_pages env fuel location_id page total_job_ids s)
       (fun t r => exists k,
          List.filter is_listings_call t = page_calls env location_id page k /\
          Z.of_nat k <= Z.max 0 (101 - page)).
Proof.
  revert page total_job_ids s.
  induction fuel as [|fuel IH]; intros page total s Hfuel; simpl.
  - destruct (page <=? 100) eqn:E; [apply Z.leb_le in E; lia |].
    apply does_ret. exists O. split; [reflexivity | lia].
  - destruct ((page <=? 100) && (total <? max_job_ids) && api_credits_remaining)
      eqn:E; [| apply does_ret; exists O; split; [reflexivity | lia]].
    apply andb_prop in E as [E _]. apply andb_prop in E as [E _].
    apply Z.leb_le in E.
    eapply does_bind.
    + apply does_and; [apply (does_guarded_page env location_id page total s) |].
      apply guarded_page_calls.
    + intros t c [[_ Hc] Ht].
      destruct Hc as [[[= ->] _] | [total' [= ->]]].
      * apply does_ret. rewrite app_nil_r. exists 1%nat.
        split; [exact Ht | lia].
      * eapply does_weaken; [apply IH; lia |].
        intros t' r [k [Hk Hle]]. exists (S k).
        rewrite List.filter_app, Ht, Hk. split; [reflexivity | lia].
    + intros t e [[_ [[[=] _] | [total' [=]]]] _].
    + intros t [[_ [[[=] _] | [total' [=]]]] _].
Qed.

(** X18. For every location the pages are asked for in order, starting
    with page 1 and without gap, and never more than 100 of them. *)
Theorem pages_in_order (location_id : string) (s : gset pykey) (w : world) :
  exists t k,
    trace (process_location env location_id s w).1 = trace w ++ t /\
    List.filter is_listings_call t = page_calls env location_id 1 k /\
    (k <= 100)%nat.
Proof.
  assert (H : does (process_location env location_id s)
                (fun t r => exists k,
                   List.filter is_listings_call t = page_calls env location_id 1 k /\
                   (k <= 100)%nat)).
  { unfold process_location.
    eapply does_bind; [apply does_log_exact | | |].
    - intros t [] [-> _].
      eapply does_weaken; [apply does_while_page_calls; simpl; lia |].
      intros t' r [k [Hk Hle]]. exists k. split; [exact Hk | lia].
    - intros t e [_ [=]].
    - intros t [_ [=]]. }
  destruct (H w) as [t [Ht [_ [k [Hk Hle]]]]]. eauto.
Qed.

Lemma for_jobs_known (s : gset pykey) (jobs : list json)
    (acc : list JobRecord * list json) (w : world) :
  Forall (known s) jobs -> for_jobs env s jobs acc w = (w, Ok acc).
Proof.
  induction 1 as [|job rest [job_id [k [Hid [Hk Hs]]]] _ IH]; [reflexivity |].
  erewrite for_jobs_cons; [exact IH |].
  now apply process_job_seen with job_id k.
Qed.

Lemma while_pages_idle (s : gset pykey) (fuel : nat) (location_id : string)
    (page total_job_ids : Z) (w : world) :
  all_listed_known env s ->
  (Z.to_nat (101 - page) <= fuel)%nat ->
  exists t,
    while_pages env fuel location_id page total_job_ids s w = (logged w t, Ok s) /\
    Forall idle t.
Proof.
  intros Hknown. revert page w.
  induction fuel as [|fuel IH]; intros page w Hfuel.
  - exists []. simpl.
    destruct (page <=? 100) eqn:E; [apply Z.leb_le in E; lia |].
    simpl. now rewrite logged_nil.
  - destruct ((page <=? 100) && (total_job_ids <? max_job_ids)) eqn:E.
    2:{ exists []. simpl. rewrite E. simpl. now rewrite logged_nil. }
    apply andb_prop in E as [Hp Ht].
    apply Z.leb_le in Hp. apply Z.ltb_lt in Ht.
    destruct (requests_get_json env (trace w ++ [EvLog INFO (FetchingPage page)])
                LINKEDIN_BASE_URL (listings_params env field location_id page))
      as [v | e] eqn:Hreply.
    + destruct (Hknown _ _ _ _ Hreply) as [l [-> Hl]].
      destruct l as [|job rest].
      * eexists. split; [now apply while_pages_empty with (v := JList []) |].
        repeat constructor.
      * set (w1 := logged w [ EvLog INFO (FetchingPage page);
                              EvGet LINKEDIN_BASE_URL
                                (listings_params env field location_id page) ]).
        destruct (IH (page + 1) w1 ltac:(lia)) as [t [Hrun Hidle]].
        exists ([ EvLog INFO (FetchingPage page);
                  EvGet LINKEDIN_BASE_URL
                    (listings_params env field location_id page) ] ++ t).
        split.
        -- erewrite while_pages_step; try eassumption.
           2:{ apply try_ok.
               pose proof (page_body_listed env location_id page total_job_ids s
                             w w1 (JList (job :: rest)) (job :: rest) [] []
                             Hreply eq_refl eq_refl
                             (for_jobs_known s (job :: rest) ([], []) w1 Hl)) as Hb.
               rewrite Hb. reflexivity. }
           cbv iota. rewrite Hrun. subst w1. now rewrite logged_logged.
        -- repeat constructor; exact Hidle.
    + eexists. split.
      * erewrite while_pages_step; try eassumption.
        2:{ erewrite try_raise by (apply page_body_fetch_raised; exact Hreply).
            apply page_handler_run. }
        cbv iota. now rewrite logged_logged.
      * repeat constructor.
Qed.

Lemma for_locations_idle (s : gset pykey) (location_ids : list string) (w : world) :
  all_listed_known env s ->
  exists t,
    for_locations env location_ids s w = (logged w t, Ok s) /\ Forall idle t.
Proof.
  intros Hknown. revert w.
  induction location_ids as [|location rest IH]; intros w.
  - exists []. simpl. now rewrite logged_nil.
  - destruct (while_pages_idle s 100 location 1 (Z.of_nat (size s))
                (logged w [EvLog INFO (ProcessingLocation location)]) Hknown
                ltac:(simpl; lia)) as [t1 [H1 Hi1]].
    destruct (IH (logged (logged w [EvLog INFO (ProcessingLocation location)]) t1))
      as [t2 [H2 Hi2]].
    exists ([EvLog INFO (ProcessingLocation location)] ++ t1 ++ t2). split.
    + simpl for_locations. erewrite bind_ok.
      2:{ unfold process_location. erewrite bind_ok by apply log_run. exact H1. }
      rewrite H2. now rewrite !logged_logged.
    + repeat (apply Forall_app; split); auto. repeat constructor.
Qed.

(** X19. A run in which every listed job id is already in the dedupe file
    changes nothing: it ends normally, leaves the files as they are, writes
    no row, asks for no job detail and calls the language model not once;
    all it does is log and ask for pages of listings. *)
Theorem rerun_changes_nothing (w : world) (s : gset pykey) :
  load_queried_ids QUERIED_IDS_FILE w = (w, Ok s) ->
  all_listed_known env s ->
  exists t, main env w = (logged w t, Ok tt) /\ Forall idle t.
Proof.
  intros Hload Hknown. unfold main. generalize LOCATION_IDS. intros location_ids.
  erewrite bind_ok by apply log_run.
  assert (Hload' : load_queried_ids QUERIED_IDS_FILE
                     (logged w [EvLog INFO PipelineStarting])
                   = (logged w [EvLog INFO PipelineStarting], Ok s)).
  { unfold load_queried_ids in *. simpl.
    destruct (files w !! QUERIED_IDS_FILE); now injection Hload as <-. }
  erewrite bind_ok by exact Hload'.
  destruct (for_locations_idle s location_ids
              (logged w [EvLog INFO PipelineStarting]) Hknown) as [t [Hrun Hidle]].
  erewrite bind_ok by exact Hrun.
  rewrite log_run, !logged_logged.
  eexists. split; [reflexivity |].
  repeat (apply Forall_app; split); auto; repeat constructor.
Qed.

End RunMore.

(* ===================================================================== *)
(** ** The further theorems at work on the sample environments *)
(* ===================================================================== *)

Lemma retry_exhaustion_any_limit_witness :
  Utils.openai_request Sample.env_limited "Which skills?" Sample.fresh =
    (Props.logged Sample.fresh
       (Obs.backoff Sample.env_limited "Which skills?" 2 1
        ++ [Py.EvLog Py.ERROR Py.MaxRetriesReached]),
     Py.Raise (Py.Exception "Max retries reached for OpenAI request.")).
Proof.
  apply (retry_exhaustion_any_limit Sample.env_limited "Which skills?" Sample.fresh).
  intros h model messages. reflexivity.
Defined.

Lemma retry_then_success_witness :
  Utils.openai_request Sample2.env_recovering "Which skills?" Sample.fresh =
    (Props.logged Sample.fresh
       (Obs.backoff Sample2.env_recovering "Which skills?" 1 1
        ++ [Obs.attempt Sample2.env_recovering "Which skills?"]),
     Py.Ok "Python, SQL").
Proof.
  apply (retry_then_success Sample2.env_recovering 1 "Which skills?" Sample.fresh
           " Python, SQL ").
  - reflexivity.
  - intros i Hi. destruct i as [|i]; [reflexivity | lia].
  - reflexivity.
Defined.

Lemma retry_other_error_propagates_witness :
  Utils.openai_request Sample2.env_down "Which skills?" Sample.fresh =
    (Props.logged Sample.fresh [Obs.attempt Sample2.env_down "Which skills?"],
     Py.Raise (Py.Exception "401 Unauthorized")).
Proof.
  apply (retry_other_error_propagates Sample2.env_down 0 "Which skills?" Sample.fresh
           (Py.Exception "401 Unauthorized")).
  - reflexivity.
  - intros i Hi. lia.
  - reflexivity.
  - reflexivity.
Defined.

Lemma openai_request_bounded_witness :
  exists t,
    Py.trace (Utils.openai_request Sample.env_limited "Which skills?" Sample.fresh).1
      = Py.trace Sample.fresh ++ t /\
    Py.files (Utils.openai_request Sample.env_limited "Which skills?" Sample.fresh).1
      = Py.files Sample.fresh /\
    (Obs.count Obs.is_chat t <= 2)%nat /\
    (Obs.count Obs.is_sleep t <= Obs.count Obs.is_chat t)%nat /\
    (Utils.openai_request Sample.env_limited "Which skills?" Sample.fresh).2
      <> Py.Diverge /\
    forall response,
      (Utils.openai_request Sample.env_limited "Which skills?" Sample.fresh).2
        = Py.Ok response -> PyStr.trimmed response.
Proof.
  exact (openai_request_bounded Sample.env_limited "Which skills?" Sample.fresh).
Defined.

Lemma dedupe_round_trip_witness :
  let w' := (ExtractSkills.save_queried_ids Sample.env ExtractSkills.QUERIED_IDS_FILE
               (map Py.JStr ["3"; "42"]) Sample2.second_run).1 in
  ExtractSkills.load_queried_ids ExtractSkills.QUERIED_IDS_FILE w' =
    (w', Py.Ok (Py.set_update
                  (list_to_set
                     (map (fun line => Py.KStr (PyStr.strip line))
                        (PyStr.file_lines Sample2.kept_text)))
                  (map Py.JStr ["3"; "42"]))).
Proof.
  apply (dedupe_round_trip Sample.env ExtractSkills.QUERIED_IDS_FILE ["3"; "42"]
           Sample2.second_run).
  - reflexivity.
  - repeat constructor; intros c H; injection H as <-; reflexivity.
  - intros id [<- | [<- | []]]; reflexivity.
  - reflexivity.
Defined.

Lemma loaded_ids_are_strings_witness :
  exists s,
    ExtractSkills.load_queried_ids ExtractSkills.QUERIED_IDS_FILE Sample2.second_run
      = (Sample2.second_run, Py.Ok s) /\
    (forall k, k ∈ s -> exists id, k = Py.KStr id /\ PyStr.trimmed id) /\
    (forall job_id k, Py.key_of job_id = Some k ->
       (forall id, job_id <> Py.JStr id) ->
       Py.in_set job_id s Sample2.second_run = (Sample2.second_run, Py.Ok false)).
Proof.
  exact (loaded_ids_are_strings ExtractSkills.QUERIED_IDS_FILE Sample2.second_run).
Defined.

Lemma for_jobs_collects_witness :
  exists t,
    Py.trace (ExtractSkills.for_jobs Sample.env ∅ [Sample.job "1"; Sample.job "2"]
                ([], []) Sample.fresh).1 = Py.trace Sample.fresh ++ t /\
    Forall (fun ev => Props.is_write ev = false) t /\
    Py.files (ExtractSkills.for_jobs Sample.env ∅ [Sample.job "1"; Sample.job "2"]
                ([], []) Sample.fresh).1 = Py.files Sample.fresh /\
    (ExtractSkills.for_jobs Sample.env ∅ [Sample.job "1"; Sample.job "2"]
       ([], []) Sample.fresh).2 <> Py.Diverge /\
    forall acc',
      (ExtractSkills.for_jobs Sample.env ∅ [Sample.job "1"; Sample.job "2"]
         ([], []) Sample.fresh).2 = Py.Ok acc' ->
      Obs.grown ∅ ([], []) acc'.
Proof.
  exact (for_jobs_collects Sample.env ∅ [Sample.job "1"; Sample.job "2"] ([], [])
           Sample.fresh).
Defined.

Lemma empty_page_ends_location_witness :
  ExtractSkills.while_pages Sample.env 97 "101318387" 4 2 ∅ Sample.fresh =
    (Props.logged Sample.fresh
       [ Py.EvLog Py.INFO (Py.FetchingPage 4);
         Py.EvGet ExtractSkills.LINKEDIN_BASE_URL
           (ExtractSkills.listings_params Sample.env ExtractSkills.field "101318387" 4);
         Py.EvLog Py.INFO Py.NoMoreListings ],
     Py.Ok ∅).
Proof.
  apply (empty_page_ends_location Sample.env 96 "101318387" 4 2 ∅ Sample.fresh
           (Py.JList [])).
  - discriminate.
  - reflexivity.
  - reflexivity.
  - reflexivity.
Defined.

Lemma broken_listing_drops_page_witness :
  exists w2,
    ExtractSkills.while_pages Sample2.env_broken 100 "101318387" 1 0 ∅ Sample.fresh =
      (Props.logged w2
         [Py.EvLog Py.ERROR (Py.UnexpectedError (Py.KeyError "job_id"))],
       Py.Ok ∅) /\
    Py.files w2 = Py.files Sample.fresh.
Proof.
  eexists.
  apply (broken_listing_drops_page Sample2.env_broken 99 "101318387" 1 0 ∅
           Sample.fresh _
           (Py.JList [Sample.job "1"; Py.JDict [("job_title", Py.JStr "Analyst")]])
           [Sample.job "1"; Py.JDict [("job_title", Py.JStr "Analyst")]]
           (Py.KeyError "job_id")).
  - discriminate.
  - reflexivity.
  - reflexivity.
  - reflexivity.
  - reflexivity.
  - reflexivity.
Defined.

Lemma non_list_answer_stops_location_witness :
  exists msg,
    ExtractSkills.while_pages Sample2.env_refused 100 "101318387" 1 0 ∅ Sample.fresh =
      (Props.logged Sample.fresh
         [ Py.EvLog Py.INFO (Py.FetchingPage 1);
           Py.EvGet ExtractSkills.LINKEDIN_BASE_URL
             (ExtractSkills.listings_params Sample2.env_refused ExtractSkills.field
                "101318387" 1);
           Py.EvLog Py.ERROR (Py.UnexpectedError (Py.TypeError msg)) ],
       Py.Ok ∅).
Proof.
  apply (non_list_answer_stops_location Sample2.env_refused 99 "101318387" 1 0 ∅
           Sample.fresh (Py.JDict [("message", Py.JStr "Rate limit exceeded")])).
  - discriminate.
  - reflexivity.
  - reflexivity.
  - reflexivity.
  - intros l. discriminate.
Defined.

Lemma main_touches_data_files_only_witness :
  Py.files (ExtractSkills.main Sample.env Sample.resumed).1 !! "config.yaml"
  = Py.files Sample.resumed !! "config.yaml".
Proof.
  apply (main_touches_data_files_only Sample.env Sample.resumed "config.yaml");
    discriminate.
Defined.

Lemma rerun_changes_nothing_witness :
  exists t,
    ExtractSkills.main Sample2.env_stale Sample2.second_run
      = (Props.logged Sample2.second_run t, Py.Ok tt) /\
    Forall Obs.idle t.
Proof.
  apply (rerun_changes_nothing Sample2.env_stale Sample2.second_run
           (list_to_set [Py.KStr "1"; Py.KStr "2"])).
  - reflexivity.
  - intros h location_id page v H. injection H as <-.
    eexists. split; [reflexivity |].
    constructor; [| constructor; [| constructor]].
    + exists (Py.JStr "1"), (Py.KStr "1").
      split; [reflexivity |]. split; [reflexivity |].
      apply elem_of_list_to_set, list_elem_of_In. simpl. auto.
    + exists (Py.JStr "2"), (Py.KStr "2").
      split; [reflexivity |]. split; [reflexivity |].
      apply elem_of_list_to_set, list_elem_of_In. simpl. auto.
Defined.
